(** * Storefront widgets: cart drawer and header menu

    A shallow embedding of the two custom elements of the theme,
    [CartDrawerComponent] (assets/cart-drawer.js) and [HeaderMenu]
    (the header menu script), and the properties their specification
    states about them.

    Both components are event handlers over the DOM.  A handler is
    embedded as a function on an explicit component state; every DOM
    write it performs is also appended to a trace, so that the order of
    the writes can be stated.  What a handler reads from the document
    (query results, layout measurements, hover state) is passed to it as
    a snapshot record taken when the event is delivered. *)

From Stdlib Require Import ZArith List Bool SpecFloat.
From stdpp Require Import base option gmap strings list pretty.

Open Scope Z_scope.
Open Scope string_scope.
Open Scope list_scope.

(** DOM elements are identified by a node id. *)
Abbreviation elem := positive.

(** ** Cart drawer *)

Module CartDrawer.

(** JavaScript numbers are IEEE 754 binary64 values. *)
Definition number := spec_float.
Definition prec : Z := 53.
Definition emax : Z := 1024.

(** [a / b] *)
Definition num_div (a b : number) : number := SFdiv prec emax a b.
(** [a > b] *)
Definition num_gt (a b : number) : bool := SFltb b a.
(** [a <= b] *)
Definition num_le (a b : number) : bool := SFleb a b.

Definition num_zero : number := S754_zero false.
(** [2^52 * 2^-53 = 0.5], canonical for binary64. *)
Definition num_half : number := S754_finite false 4503599627370496 (-53).
(** Small integers as binary64 values (the mantissa is normalised). *)
Definition num_of_pos (p : positive) : number :=
  binary_normalize prec emax (Zpos p) 0 false.

Definition is_nan (x : number) : bool :=
  match x with S754_nan => true | _ => false end.

(** [#summaryThreshold = 0.5] *)
Definition summaryThreshold : number := num_half.

(** The state object of a history entry; the drawer only looks at
    [state?.cartDrawerOpen], which is falsy for [null] and for an object
    without the flag. *)
Inductive hstate :=
| StateNull
| StateObj (cartDrawerOpen : bool).

Definition cartDrawerOpen_of (st : hstate) : bool :=
  match st with StateNull => false | StateObj b => b end.

(** The session history: the entries, the index of the current one, and
    the traversals asked for by [history.back()] that the browser has not
    carried out yet ([back] is asynchronous). *)
Record History := {
  entries : list hstate;
  index : nat;
  pendingBack : nat
}.

(** [history.state] *)
Definition history_state (h : History) : hstate :=
  default StateNull (entries h !! index h).

(** [history.pushState(st, '')]: drops the forward entries, appends. *)
Definition pushState (st : hstate) (h : History) : History :=
  {| entries := take (S (index h)) (entries h) ++ [st];
     index := length (take (S (index h)) (entries h));
     pendingBack := pendingBack h |}.

(** [history.replaceState(st, '')] *)
Definition replaceState (st : hstate) (h : History) : History :=
  {| entries := <[index h := st]> (entries h);
     index := index h;
     pendingBack := pendingBack h |}.

(** [history.back()] only queues the traversal. *)
Definition back (h : History) : History :=
  {| entries := entries h; index := index h; pendingBack := S (pendingBack h) |}.

(** The dialog element referenced by [refs.dialog]. *)
Record Dialog := {
  dlg_open : bool;
  dlg_attrs : gmap string string;
  dlg_style : gmap string string
}.

(** Writes of the component, in the order they happen. *)
Inductive effect :=
| SetAttribute (name value : string)
| StyleSetProperty (name value : string)
| StyleRemoveProperty (name : string)
| HistoryPushState (st : hstate)
| HistoryReplaceState (st : hstate)
| HistoryBack
| AddPopstateListener (signal : nat)
| Abort (controller : nat)
| DialogShown
| DialogClosed (closingAnimation : option string).

#[global] Instance drawer_effect_eq_dec : EqDecision effect.
Proof. unfold EqDecision, Decision. repeat decide equality. Defined.

(** The component together with the part of the browser it talks to. *)
Record Drawer := {
  refs_dialog : option Dialog;
  history : History;
  (** [#historyAbortController], by controller id *)
  historyAbortController : option nat;
  (** the signal the registered [#handlePopState] listener of [window]
      was added with, if that listener is registered *)
  popstateListener : option nat;
  (** controllers whose signal has been aborted *)
  aborted : gset nat;
  nextController : nat;
  (** the listeners that connectedCallback adds and disconnectedCallback
      removes are registered: the one for the cart-add event on the
      document, the ones for the dialog lifecycle events on the component *)
  listening : bool;
  trace : list effect
}.

(** What the handlers read from the document when an event arrives. *)
Record View := {
  (** [isMobileBreakpoint()] *)
  isMobileBreakpoint : bool;
  (** [dialog.querySelector('.cart-drawer__content')] *)
  content : option elem;
  (** [dialog.querySelector('.cart-drawer__summary')] *)
  summary : option elem;
  (** [dialog.getBoundingClientRect().height] *)
  dialogHeight : number;
  (** [el.getBoundingClientRect().height] *)
  rectHeight : elem -> number;
  (** [this.hasAttribute('auto-open')] *)
  autoOpen : bool
}.

(** *** State updates *)

Definition emit (e : effect) (s : Drawer) : Drawer :=
  {| refs_dialog := refs_dialog s; history := history s;
     historyAbortController := historyAbortController s;
     popstateListener := popstateListener s; aborted := aborted s;
     nextController := nextController s; listening := listening s;
     trace := trace s ++ [e] |}.

Definition with_dialog (d : option Dialog) (s : Drawer) : Drawer :=
  {| refs_dialog := d; history := history s;
     historyAbortController := historyAbortController s;
     popstateListener := popstateListener s; aborted := aborted s;
     nextController := nextController s; listening := listening s;
     trace := trace s |}.

Definition with_history (h : History) (s : Drawer) : Drawer :=
  {| refs_dialog := refs_dialog s; history := h;
     historyAbortController := historyAbortController s;
     popstateListener := popstateListener s; aborted := aborted s;
     nextController := nextController s; listening := listening s;
     trace := trace s |}.

Definition with_listening (b : bool) (s : Drawer) : Drawer :=
  {| refs_dialog := refs_dialog s; history := history s;
     historyAbortController := historyAbortController s;
     popstateListener := popstateListener s; aborted := aborted s;
     nextController := nextController s; listening := b;
     trace := trace s |}.

(** [dialog.setAttribute(name, value)] *)
Definition setAttribute (name value : string) (s : Drawer) : Drawer :=
  match refs_dialog s with
  | None => s
  | Some d =>
      emit (SetAttribute name value)
        (with_dialog (Some {| dlg_open := dlg_open d;
                              dlg_attrs := <[name := value]> (dlg_attrs d);
                              dlg_style := dlg_style d |}) s)
  end.

(** [dialog.style.setProperty(name, value)] *)
Definition style_setProperty (name value : string) (s : Drawer) : Drawer :=
  match refs_dialog s with
  | None => s
  | Some d =>
      emit (StyleSetProperty name value)
        (with_dialog (Some {| dlg_open := dlg_open d;
                              dlg_attrs := dlg_attrs d;
                              dlg_style := <[name := value]> (dlg_style d) |}) s)
  end.

(** [dialog.style.removeProperty(name)] *)
Definition style_removeProperty (name : string) (s : Drawer) : Drawer :=
  match refs_dialog s with
  | None => s
  | Some d =>
      emit (StyleRemoveProperty name)
        (with_dialog (Some {| dlg_open := dlg_open d;
                              dlg_attrs := dlg_attrs d;
                              dlg_style := delete name (dlg_style d) |}) s)
  end.

Definition set_open (b : bool) (s : Drawer) : Drawer :=
  match refs_dialog s with
  | None => s
  | Some d =>
      with_dialog (Some {| dlg_open := b; dlg_attrs := dlg_attrs d;
                           dlg_style := dlg_style d |}) s
  end.

(** [controller.abort()]: marks the signal aborted and removes the
    listeners that were added with it. *)
Definition abort (c : nat) (s : Drawer) : Drawer :=
  {| refs_dialog := refs_dialog s; history := history s;
     historyAbortController := historyAbortController s;
     popstateListener :=
       if decide (popstateListener s = Some c) then None else popstateListener s;
     aborted := {[c]} ∪ aborted s;
     nextController := nextController s; listening := listening s;
     trace := trace s ++ [Abort c] |}.

(** [this.#historyAbortController?.abort()] *)
Definition abort_history_controller (s : Drawer) : Drawer :=
  match historyAbortController s with
  | None => s
  | Some c => abort c s
  end.

(** [this.#historyAbortController = new AbortController()] followed by
    [window.addEventListener('popstate', this.#handlePopState, { signal })].
    The listener list of an event target holds a callback once: adding
    [#handlePopState] again while it is registered changes nothing. *)
Definition new_controller_and_listen (s : Drawer) : Drawer :=
  let c := nextController s in
  {| refs_dialog := refs_dialog s; history := history s;
     historyAbortController := Some c;
     popstateListener :=
       match popstateListener s with
       | Some c' => Some c'
       | None => Some c
       end;
     aborted := aborted s;
     nextController := S c; listening := listening s;
     trace := trace s ++ [AddPopstateListener c] |}.

(** *** The handlers of cart-drawer.js *)

(** The custom property that selects the closing animation. *)
Definition closing_animation : string := "--dialog-drawer-closing-animation".

(** [#updateStickyState] *)
Definition updateStickyState (v : View) (s : Drawer) : Drawer :=
  match refs_dialog s with
  | None => s
  | Some _ =>
      match content v, summary v with
      | Some _, Some sm =>
          let drawerHeight := dialogHeight v in
          let summaryHeight := rectHeight v sm in
          let ratio := num_div summaryHeight drawerHeight in
          setAttribute "cart-summary-sticky"
            (if num_gt ratio summaryThreshold then "false" else "true") s
      | _, _ => setAttribute "cart-summary-sticky" "false" s
      end
  end.

(** [#handleHistoryOpen] *)
Definition handleHistoryOpen (v : View) (s : Drawer) : Drawer :=
  if negb (isMobileBreakpoint v) then s
  else
    let s1 :=
      if negb (cartDrawerOpen_of (history_state (history s)))
      then emit (HistoryPushState (StateObj true))
             (with_history (pushState (StateObj true) (history s)) s)
      else s in
    new_controller_and_listen s1.

(** [#handleHistoryClose] *)
Definition handleHistoryClose (s : Drawer) : Drawer :=
  let s1 := abort_history_controller s in
  if cartDrawerOpen_of (history_state (history s1))
  then emit HistoryBack (with_history (back (history s1)) s1)
  else s1.

(** Listeners of [DialogOpenEvent], in the order connectedCallback
    registers them. *)
Definition dispatchDialogOpen (v : View) (s : Drawer) : Drawer :=
  if listening s then handleHistoryOpen v (updateStickyState v s) else s.

(** Listener of [DialogCloseEvent]. *)
Definition dispatchDialogClose (s : Drawer) : Drawer :=
  if listening s then handleHistoryClose s else s.

(** Modelled from the spec: [showDialog] of the dialog base class
    ([@theme/dialog], not part of the sources at hand).  The spec has the
    underlying dialog show itself ([isOpen] is owned by the dialog
    primitive) and then emit its "open" lifecycle signal. *)
Definition showDialog (v : View) (s : Drawer) : Drawer :=
  match refs_dialog s with
  | None => s
  | Some _ => dispatchDialogOpen v (emit DialogShown (set_open true s))
  end.

(** Modelled from the spec: [closeDialog] of the dialog base class.  The
    dialog hides itself, playing the closing animation its style asks
    for, and then emits its "close" lifecycle signal.  The trace records
    the value of [--dialog-drawer-closing-animation] the close ran
    under. *)
Definition closeDialog (s : Drawer) : Drawer :=
  match refs_dialog s with
  | None => s
  | Some d =>
      dispatchDialogClose
        (emit (DialogClosed (dlg_style d !! closing_animation))
           (set_open false s))
  end.

(** [#handlePopState]; the [await] resumes once [closeDialog] is done. *)
Definition handlePopState (s : Drawer) : Drawer :=
  match refs_dialog s with
  | Some d =>
      if dlg_open d then
        let s1 := style_setProperty closing_animation "none" s in
        let s2 := closeDialog s1 in
        style_removeProperty closing_animation s2
      else s
  | None => s
  end.

(** [#handleCartAdd] *)
Definition handleCartAdd (v : View) (s : Drawer) : Drawer :=
  if autoOpen v then showDialog v s else s.

(** [open()]; the late wiring to the payment-terms widget is left out. *)
Definition open (v : View) (s : Drawer) : Drawer := showDialog v s.

(** [close()] *)
Definition close (s : Drawer) : Drawer := closeDialog s.

(** [connectedCallback] *)
Definition connectedCallback (s : Drawer) : Drawer :=
  let s1 := with_listening true s in
  if cartDrawerOpen_of (history_state (history s1))
  then emit (HistoryReplaceState StateNull)
         (with_history (replaceState StateNull (history s1)) s1)
  else s1.

(** [disconnectedCallback] *)
Definition disconnectedCallback (s : Drawer) : Drawer :=
  abort_history_controller (with_listening false s).

(** The window dispatches [popstate] to the registered listener. *)
Definition dispatchPopState (s : Drawer) : Drawer :=
  match popstateListener s with
  | Some _ => handlePopState s
  | None => s
  end.

(** A traversal of the session history by [delta] entries: the current
    entry changes and [popstate] is dispatched.  Out of range, nothing
    happens.  A traversal by 0 entries is a reload of the page: it
    changes no entry and dispatches no [popstate]; the reload itself is
    not modelled. *)
Definition traverse (delta : Z) (s : Drawer) : Drawer :=
  let target := Z.of_nat (index (history s)) + delta in
  if Z.eqb delta 0 then s
  else if Z.leb 0 target && Z.ltb target (Z.of_nat (length (entries (history s)))) then
    dispatchPopState
      (with_history {| entries := entries (history s);
                       index := Z.to_nat target;
                       pendingBack := pendingBack (history s) |} s)
  else s.

(** The browser carries out one queued [history.back()]. *)
Definition settleBack (s : Drawer) : Drawer :=
  match pendingBack (history s) with
  | O => s
  | S n =>
      traverse (-1)
        (with_history {| entries := entries (history s);
                         index := index (history s);
                         pendingBack := n |} s)
  end.

(** Events the drawer reacts to.  The cart-add event reaches
    [#handleCartAdd] only while the listener on the document is
    registered. *)
Inductive event :=
| Connected
| Disconnected
| CartAdded (v : View)
| OpenRequested (v : View)
| CloseRequested
| UserNavigates (delta : Z)
| BackSettles.

Definition step (e : event) (s : Drawer) : Drawer :=
  match e with
  | Connected => connectedCallback s
  | Disconnected => disconnectedCallback s
  | CartAdded v => if listening s then handleCartAdd v s else s
  | OpenRequested v => open v s
  | CloseRequested => close s
  | UserNavigates delta => traverse delta s
  | BackSettles => settleBack s
  end.

Definition run (es : list event) (s : Drawer) : Drawer :=
  fold_left (fun s e => step e s) es s.

(** What a handler added to the trace. *)
Definition new_effects (s s' : Drawer) : list effect :=
  drop (length (trace s)) (trace s').

Definition is_push (e : effect) : bool :=
  match e with HistoryPushState _ => true | _ => false end.

Definition is_back (e : effect) : bool :=
  match e with HistoryBack => true | _ => false end.

(** Number of history entries pushed, of back navigations asked for. *)
Definition pushes (t : list effect) : nat := length (List.filter is_push t).
Definition backs (t : list effect) : nat := length (List.filter is_back t).

(** The current history entry is tagged as "drawer open". *)
Definition tagged (s : Drawer) : bool :=
  cartDrawerOpen_of (history_state (history s)).

(** The state between two uses of the drawer: the component is
    connected, no traversal is pending, no popstate listener is left, and
    the current history entry exists and is not tagged. *)
Definition settled (s : Drawer) : Prop :=
  listening s = true ∧ popstateListener s = None ∧
  pendingBack (history s) = 0%nat ∧
  (index (history s) < length (entries (history s)))%nat ∧
  tagged s = false.

(** The drawer is opened, closed by the user, and the browser carries
    out the back navigation the close asked for. *)
Definition open_close_cycle (v : View) (s : Drawer) : Drawer :=
  settleBack (dispatchDialogClose (dispatchDialogOpen v s)).

(** The value of the sticky-summary attribute. *)
Definition sticky (s : Drawer) : option string :=
  match refs_dialog s with
  | None => None
  | Some d => dlg_attrs d !! "cart-summary-sticky"
  end.

Definition is_open (s : Drawer) : bool :=
  match refs_dialog s with
  | None => false
  | Some d => dlg_open d
  end.

(** The component is attached, and while the dialog is open the popstate
    listener is registered. *)
Definition navigation_watched (s : Drawer) : Prop :=
  listening s = true ∧ (is_open s = true → is_Some (popstateListener s)).

(** The event leaves the component attached, and if it opens the drawer
    it does so on a narrow viewport. *)
Definition on_phone (e : event) : bool :=
  match e with
  | Disconnected => false
  | CartAdded v | OpenRequested v => isMobileBreakpoint v
  | Connected | CloseRequested | UserNavigates _ | BackSettles => true
  end.

(** *** Sample documents *)

Definition closed_dialog : Dialog :=
  {| dlg_open := false; dlg_attrs := ∅; dlg_style := ∅ |}.

(** A freshly loaded page: one untagged history entry, the drawer closed
    and connected. *)
Definition fresh : Drawer :=
  {| refs_dialog := Some closed_dialog;
     history := {| entries := [StateNull]; index := 0; pendingBack := 0 |};
     historyAbortController := None; popstateListener := None;
     aborted := ∅; nextController := 0; listening := true; trace := [] |}.

(** A cart with items: both regions exist, heights given in pixels. *)
Definition view_of (mobile : bool) (summaryPx drawerPx : number) : View :=
  {| isMobileBreakpoint := mobile;
     content := Some 1%positive; summary := Some 2%positive;
     dialogHeight := drawerPx;
     rectHeight := fun _ => summaryPx;
     autoOpen := false |}.

(** A page whose drawer is showing, with one entry to go back to. *)
Definition showing : Drawer :=
  {| refs_dialog := Some {| dlg_open := true; dlg_attrs := ∅; dlg_style := ∅ |};
     history := {| entries := [StateNull; StateNull]; index := 1; pendingBack := 0 |};
     historyAbortController := None; popstateListener := None;
     aborted := ∅; nextController := 0; listening := true; trace := [] |}.

(** An empty cart: the summary region is not rendered. *)
Definition view_empty_cart (mobile : bool) : View :=
  {| isMobileBreakpoint := mobile;
     content := Some 1%positive; summary := None;
     dialogHeight := num_of_pos 800;
     rectHeight := fun _ => num_zero;
     autoOpen := false |}.

End CartDrawer.

(** ** Header menu *)

Module HeaderMenu.

(** The input event: [target] is [None] when [event.target] is not an
    Element, [relatedTarget] is [None] when it is not a Node. *)
Record Event := {
  target : option elem;
  relatedTarget : option elem;
  type : string
}.

(** What the handlers read from the document while an event is handled.
    Layout depends on the inline [display] values the component itself
    writes while measuring, so [offsetHeight] takes that store. *)
Record Dom := {
  (** [this.closest('header-component')] *)
  headerComponent : option elem;
  (** getter [overflowMenu]: the [part="overflow"] element *)
  overflowMenu : option elem;
  (** getter [overflowListHovered] *)
  overflowListHovered : bool;
  (** [el.matches(':hover')] *)
  hovered : elem -> bool;
  (** [el.slot] *)
  slot : elem -> string;
  (** [el.parentElement] *)
  parentElement : elem -> option elem;
  (** [el.querySelector('[slot="overflow"]')] *)
  querySelector_slot_overflow : elem -> option elem;
  (** [el.querySelector('[ref="menuitem"]')] *)
  querySelector_menuitem : elem -> option elem;
  (** [el.querySelector('[ref="submenu[]"]')] *)
  querySelector_submenu : elem -> option elem;
  (** [el instanceof HTMLElement] *)
  isHTMLElement : elem -> bool;
  (** [a.contains(b)] *)
  contains : elem -> elem -> bool;
  (** [document.activeElement] *)
  activeElement : option elem;
  (** [el.querySelector('slot')?.assignedElements()] *)
  assignedElements : elem -> option (list elem);
  (** [el.offsetHeight] under the given inline [display] values *)
  offsetHeight : gmap elem string -> elem -> Z;
  (** [headerComponent.hasAttribute('data-submenu-overlap-bottom-row')] *)
  overlapBottomRow : bool;
  (** [headerComponent.querySelector('.header__row--top')] *)
  headerRowTop : option elem
}.

(** A callback waiting for the next animation frame; both closures of the
    mutation callback capture the submenu of their activation. *)
Inductive frame_cb :=
| OuterFrame (submenu : elem)
| InnerFrame (submenu : elem).

(** Writes of the component, in the order they happen. *)
Inductive effect :=
| DispatchMegaMenuHover
| SetOverflowExpanded (v : string)
| SetActiveItem (i : option elem)
| SetHostAriaExpanded (v : string)
| SetAriaExpanded (i : elem) (v : string)
| SetDataActive (sm : elem)
| DeleteDataActive (sm : elem)
| SetDisplay (sm : elem) (v : string)
| RemoveDisplay (sm : elem)
| SetStyleProperty (el : elem) (name value : string)
| SetHostStyleProperty (name value : string)
| ObserverDisconnect (o : nat)
| ClearObserverField
| ObserverObserve (o : nat) (submenu : elem)
| SetTimeout (ms : nat)
| RequestAnimationFrame (cb : frame_cb).

#[global] Instance frame_cb_eq_dec : EqDecision frame_cb.
Proof. unfold EqDecision, Decision. repeat decide equality. Defined.

#[global] Instance menu_effect_eq_dec : EqDecision effect.
Proof. unfold EqDecision, Decision. repeat decide equality. Defined.

(** The activation flags. *)
Record Flags := {
  (** [#state.activeItem] *)
  activeItem : option elem;
  (** [this.ariaExpanded] *)
  hostAriaExpanded : option string;
  (** [item.ariaExpanded]; the items are descendants of the host, found
      by [querySelector], so none of them is the host itself *)
  ariaExpanded : gmap elem string;
  (** [this.dataset.overflowExpanded] *)
  overflowExpanded : option string;
  (** the elements that carry [data-active] *)
  dataActive : gset elem
}.

(** Inline styles. *)
Record Styles := {
  (** inline [display] of the submenus *)
  inlineDisplay : gmap elem string;
  (** custom properties set on elements *)
  styleProps : gmap (elem * string) string;
  (** custom properties set on the host *)
  hostStyle : gmap string string
}.

(** The deferred-content watcher and the browser queues it relies on. *)
Record Watcher := {
  (** [#submenuMutationObserver], by observer id *)
  submenuMutationObserver : option nat;
  (** the observers that are attached: observed submenu and the time of
      the activation that attached them *)
  observing : gmap nat (elem * nat);
  nextObserver : nat;
  (** callbacks queued for the next animation frame *)
  frames : list frame_cb;
  (** due times of the pending cleanup timers, oldest first *)
  timers : list nat;
  (** the clock, in milliseconds *)
  now : nat
}.

Record Menu := {
  flags : Flags;
  styles : Styles;
  watcher : Watcher;
  trace : list effect
}.

(** *** Interpretation of the writes *)

Definition flags_after (e : effect) (f : Flags) : Flags :=
  match e with
  | SetOverflowExpanded v =>
      {| activeItem := activeItem f; hostAriaExpanded := hostAriaExpanded f;
         ariaExpanded := ariaExpanded f; overflowExpanded := Some v;
         dataActive := dataActive f |}
  | SetActiveItem i =>
      {| activeItem := i; hostAriaExpanded := hostAriaExpanded f;
         ariaExpanded := ariaExpanded f; overflowExpanded := overflowExpanded f;
         dataActive := dataActive f |}
  | SetHostAriaExpanded v =>
      {| activeItem := activeItem f; hostAriaExpanded := Some v;
         ariaExpanded := ariaExpanded f; overflowExpanded := overflowExpanded f;
         dataActive := dataActive f |}
  | SetAriaExpanded i v =>
      {| activeItem := activeItem f; hostAriaExpanded := hostAriaExpanded f;
         ariaExpanded := <[i := v]> (ariaExpanded f);
         overflowExpanded := overflowExpanded f; dataActive := dataActive f |}
  | SetDataActive sm =>
      {| activeItem := activeItem f; hostAriaExpanded := hostAriaExpanded f;
         ariaExpanded := ariaExpanded f; overflowExpanded := overflowExpanded f;
         dataActive := {[sm]} ∪ dataActive f |}
  | DeleteDataActive sm =>
      {| activeItem := activeItem f; hostAriaExpanded := hostAriaExpanded f;
         ariaExpanded := ariaExpanded f; overflowExpanded := overflowExpanded f;
         dataActive := dataActive f ∖ {[sm]} |}
  | _ => f
  end.

Definition styles_after (e : effect) (st : Styles) : Styles :=
  match e with
  | SetDisplay sm v =>
      {| inlineDisplay := <[sm := v]> (inlineDisplay st);
         styleProps := styleProps st; hostStyle := hostStyle st |}
  | RemoveDisplay sm =>
      {| inlineDisplay := delete sm (inlineDisplay st);
         styleProps := styleProps st; hostStyle := hostStyle st |}
  | SetStyleProperty el name value =>
      {| inlineDisplay := inlineDisplay st;
         styleProps := <[(el, name) := value]> (styleProps st);
         hostStyle := hostStyle st |}
  | SetHostStyleProperty name value =>
      {| inlineDisplay := inlineDisplay st; styleProps := styleProps st;
         hostStyle := <[name := value]> (hostStyle st) |}
  | _ => st
  end.

Definition watcher_after (e : effect) (w : Watcher) : Watcher :=
  match e with
  | ObserverDisconnect o =>
      {| submenuMutationObserver := submenuMutationObserver w;
         observing := delete o (observing w); nextObserver := nextObserver w;
         frames := frames w; timers := timers w; now := now w |}
  | ClearObserverField =>
      {| submenuMutationObserver := None;
         observing := observing w; nextObserver := nextObserver w;
         frames := frames w; timers := timers w; now := now w |}
  | ObserverObserve o sm =>
      {| submenuMutationObserver := Some o;
         observing := <[o := (sm, now w)]> (observing w);
         nextObserver := S o;
         frames := frames w; timers := timers w; now := now w |}
  | SetTimeout ms =>
      {| submenuMutationObserver := submenuMutationObserver w;
         observing := observing w; nextObserver := nextObserver w;
         frames := frames w; timers := timers w ++ [(now w + ms)%nat];
         now := now w |}
  | RequestAnimationFrame cb =>
      {| submenuMutationObserver := submenuMutationObserver w;
         observing := observing w; nextObserver := nextObserver w;
         frames := frames w ++ [cb]; timers := timers w; now := now w |}
  | _ => w
  end.

(** One write: the state changes and the trace grows. *)
Definition perform (e : effect) (s : Menu) : Menu :=
  {| flags := flags_after e (flags s);
     styles := styles_after e (styles s);
     watcher := watcher_after e (watcher s);
     trace := trace s ++ [e] |}.

Definition with_watcher (w : Watcher) (s : Menu) : Menu :=
  {| flags := flags s; styles := styles s; watcher := w; trace := trace s |}.

(** [x || 0] on a possibly missing height. *)
Definition or0 (x : option Z) : Z :=
  match x with
  | Some h => if Z.eqb h 0 then 0 else h
  | None => 0
  end.

(** [`${h}px`] *)
Definition px (h : Z) : string := pretty h +:+ "px".

(** [el.offsetHeight] as the document lays out right now. *)
Definition height (d : Dom) (s : Menu) (el : elem) : Z :=
  offsetHeight d (inlineDisplay (styles s)) el.

(** *** Helpers at the end of the script *)

(** [findMenuItem]; the recursion follows the "More" item to the first
    overflowing item, [fuel] bounds its depth. *)
Fixpoint findMenuItem_rec (fuel : nat) (d : Dom) (element : option elem) : option elem :=
  match element with
  | None => None
  | Some el =>
      if String.eqb (slot d el) "more" then
        match fuel with
        | O => None
        | S n =>
            findMenuItem_rec n d (parentElement d el ≫= querySelector_slot_overflow d)
        end
      else querySelector_menuitem d el
  end.

(** A [slot="overflow"] element is not a [slot="more"] element, so the
    recursion stops after one call. *)
Definition findMenuItem (d : Dom) (element : option elem) : option elem :=
  findMenuItem_rec 1 d element.

(** What [querySelector('[slot="overflow"]')] guarantees of its result. *)
Definition selectors_sound (d : Dom) : Prop :=
  ∀ p o, querySelector_slot_overflow d p = Some o → slot d o = "overflow".

(** [findSubmenu] *)
Definition findSubmenu (d : Dom) (element : option elem) : option elem :=
  match (element ≫= parentElement d) ≫= querySelector_submenu d with
  | Some sm => if isHTMLElement d sm then Some sm else None
  | None => None
  end.

(** *** Methods of the class *)

(** [#cleanupMutationObserver] *)
Definition cleanupMutationObserver (s : Menu) : Menu :=
  let s1 :=
    match submenuMutationObserver (watcher s) with
    | Some o => perform (ObserverDisconnect o) s
    | None => s
    end in
  perform ClearObserverField s1.

(** [mapSubmenus(cb)] inside [#getOverflowListLinksHeight]: [cb] on the
    submenu of every slotted link that has one. *)
Definition mapSubmenus (d : Dom) (links : list elem) (cb : elem → effect) (s : Menu) : Menu :=
  fold_left
    (fun s link =>
       match querySelector_submenu d link with
       | Some sm => perform (cb sm) s
       | None => s
       end)
    links s.

(** [#getOverflowListLinksHeight] *)
Definition getOverflowListLinksHeight (d : Dom) (s : Menu) : Z * Menu :=
  match overflowMenu d ≫= assignedElements d with
  | None => (or0 (height d s <$> overflowMenu d), s)
  | Some slottedMenuLinks =>
      let s1 := mapSubmenus d slottedMenuLinks (fun sm => SetDisplay sm "none") s in
      let h := or0 (height d s1 <$> overflowMenu d) in
      let s2 := mapSubmenus d slottedMenuLinks RemoveDisplay s1 in
      (h, s2)
  end.

(** [#setFullOpenHeaderHeight] *)
Definition setFullOpenHeaderHeight (d : Dom) (submenuHeight : Z) (s : Menu) : Menu :=
  match headerComponent d with
  | None => s
  | Some header =>
      let isOverlapSituation := overlapBottomRow d in
      let headerVisibleHeight :=
        if isOverlapSituation && Z.ltb 0 (height d s header)
        then default 0 (height d s <$> headerRowTop d)
        else height d s header in
      let nothingToOpen := Z.eqb submenuHeight 0 in
      let fullOpenHeaderHeight :=
        if nothingToOpen then 0 else submenuHeight + headerVisibleHeight in
      perform (SetStyleProperty header "--full-open-header-height" (px fullOpenHeaderHeight)) s
  end.

(** [(!isDefaultSlot).toString()] *)
Definition bool_toString (b : bool) : string := if b then "true" else "false".

(** [activate], lines 91-103: the active item is switched. *)
Definition switch_active (d : Dom) (tgt item : elem) (s : Menu) : Menu :=
  let isDefaultSlot := String.eqb (slot d tgt) EmptyString in
  let s := perform (SetOverflowExpanded (bool_toString (negb isDefaultSlot))) s in
  let previouslyActiveItem := activeItem (flags s) in
  let s :=
    match previouslyActiveItem with
    | Some prev => perform (SetAriaExpanded prev "false") s
    | None => s
    end in
  let s := perform (SetActiveItem (Some item)) s in
  let s := perform (SetHostAriaExpanded "true") s in
  perform (SetAriaExpanded item "true") s.

(** The submenu an activation opens: the item's own one, or the shared
    overflow panel for an item outside the default slot without one. *)
Definition submenu_for (d : Dom) (tgt item : elem) : option elem :=
  let isDefaultSlot := String.eqb (slot d tgt) EmptyString in
  let ownSubmenu := findSubmenu d (Some item) in
  let hasSubmenu := bool_decide (is_Some ownSubmenu) in
  if negb hasSubmenu && negb isDefaultSlot then overflowMenu d else ownSubmenu.

(** [activate], lines 112-137: the submenu is marked and watched. *)
Definition watch_submenu (submenu : option elem) (s : Menu) : Menu :=
  match submenu with
  | Some sm =>
      let s := perform (SetDataActive sm) s in
      let s := cleanupMutationObserver s in
      let s := perform (ObserverObserve (nextObserver (watcher s)) sm) s in
      perform (SetTimeout 500) s
  | None => s
  end.

(** [activate], lines 139-157: the height to publish. *)
Definition measure_height (d : Dom) (tgt item : elem) (s : Menu) : Z * Menu :=
  let isDefaultSlot := String.eqb (slot d tgt) EmptyString in
  let hasSubmenu := bool_decide (is_Some (findSubmenu d (Some item))) in
  let submenu := submenu_for d tgt item in
  let finalHeight := or0 (height d s <$> submenu) in
  let '(finalHeight, s) :=
    if negb isDefaultSlot then
      let '(overflowListHeight, s) := getOverflowListLinksHeight d s in
      if hasSubmenu then
        let overflowHeight := or0 (height d s <$> overflowMenu d) in
        (Z.max overflowHeight overflowListHeight, s)
      else (overflowListHeight, s)
    else (finalHeight, s) in
  (match submenu with Some _ => finalHeight | None => 0 end, s).

(** [activate], lines 159-161: the measurements are published. *)
Definition publish (d : Dom) (header : elem) (finalHeight : Z) (s : Menu) : Menu :=
  let s := perform (SetStyleProperty header "--submenu-height" (px finalHeight)) s in
  let s := setFullOpenHeaderHeight d finalHeight s in
  perform (SetHostStyleProperty "--submenu-opacity" "1") s.

(** The body of [activate] once the guards have let [item] through. *)
Definition activate_item (d : Dom) (tgt header item : elem) (s : Menu) : Menu :=
  let s := switch_active d tgt item s in
  let s := watch_submenu (submenu_for d tgt item) s in
  let '(finalHeight, s) := measure_height d tgt item s in
  publish d header finalHeight s.

(** [activate] *)
Definition activate (d : Dom) (event : Event) (s : Menu) : Menu :=
  let s := perform DispatchMegaMenuHover s in
  match target event, headerComponent d with
  | Some tgt, Some header =>
      match findMenuItem d (Some tgt) with
      | None => s
      | Some item =>
          if decide (Some item = activeItem (flags s)) then s
          else activate_item d tgt header item s
      end
  | _, _ => s
  end.

(** [#deactivate(item)] *)
Definition deactivate_item (d : Dom) (item : option elem) (s : Menu) : Menu :=
  match item with
  | None => s
  | Some it =>
      if decide (Some it = activeItem (flags s)) then
        if overflowListHovered d || from_option (hovered d) false (overflowMenu d)
        then s
        else
          let s :=
            match headerComponent d with
            | Some header => perform (SetStyleProperty header "--submenu-height" "0px") s
            | None => s
            end in
          let s := setFullOpenHeaderHeight d 0 s in
          let s := perform (SetHostStyleProperty "--submenu-opacity" "0") s in
          let s := perform (SetOverflowExpanded "false") s in
          let submenu := findSubmenu d (Some it) in
          let s := perform (SetActiveItem None) s in
          let s := perform (SetHostAriaExpanded "false") s in
          let s := perform (SetAriaExpanded it "false") s in
          match submenu with
          | Some sm => perform (DeleteDataActive sm) s
          | None => s
          end
      else s
  end.

(** [#deactivate()] with the default argument [this.#state.activeItem] *)
Definition deactivate_active (d : Dom) (s : Menu) : Menu :=
  deactivate_item d (activeItem (flags s)) s.

(** The three guards of [deactivate]. *)
Definition isMovingWithinMenu (d : Dom) (event : Event) (s : Menu) : bool :=
  match relatedTarget event with
  | None => false
  | Some _ =>
      match findSubmenu d (activeItem (flags s)), activeElement d with
      | Some menu, Some focused => contains d menu focused
      | _, _ => false
      end
  end.

Definition isMovingToSubmenu (d : Dom) (event : Event) (s : Menu) : bool :=
  match relatedTarget event with
  | None => false
  | Some rt =>
      String.eqb (type event) "blur" &&
      match findSubmenu d (activeItem (flags s)) with
      | Some menu => contains d menu rt
      | None => false
      end
  end.

Definition isMovingToOverflowMenu (d : Dom) (event : Event) : bool :=
  match relatedTarget event with
  | None => false
  | Some rt =>
      match parentElement d rt with
      | Some p => String.eqb (slot d p) "overflow"
      | None => false
      end
  end.

(** [deactivate] *)
Definition deactivate (d : Dom) (event : Event) (s : Menu) : Menu :=
  match target event with
  | None => s
  | Some _ =>
      if isMovingWithinMenu d event s || isMovingToOverflowMenu d event
         || isMovingToSubmenu d event s
      then s
      else deactivate_active d s
  end.

(** [#overflowSubmenuListener] *)
Definition overflowSubmenuListener (d : Dom) (s : Menu) : Menu :=
  deactivate_active d s.

(** [disconnectedCallback]; the listeners it removes are not part of the
    state. *)
Definition disconnectedCallback (s : Menu) : Menu :=
  cleanupMutationObserver s.

(** The callback given to [new MutationObserver]. *)
Definition mutationCallback (submenu : elem) (s : Menu) : Menu :=
  perform (RequestAnimationFrame (OuterFrame submenu)) s.

(** The two nested animation-frame callbacks. *)
Definition frameCallback (d : Dom) (cb : frame_cb) (s : Menu) : Menu :=
  match cb with
  | OuterFrame submenu => perform (RequestAnimationFrame (InnerFrame submenu)) s
  | InnerFrame submenu =>
      if Z.ltb 0 (height d s submenu) then
        let s :=
          match headerComponent d with
          | Some header =>
              perform (SetStyleProperty header "--submenu-height"
                         (px (height d s submenu))) s
          | None => s
          end in
        cleanupMutationObserver s
      else s
  end.

(** The callback given to [setTimeout]. *)
Definition timeoutCallback (s : Menu) : Menu :=
  cleanupMutationObserver s.

(** *** The event loop around the component *)

Inductive input :=
| Activate (d : Dom) (event : Event)
| Deactivate (d : Dom) (event : Event)
| OverflowPointerLeave (d : Dom)
| Disconnected
(** mutation records are delivered to observer [o] *)
| Mutation (o : nat)
(** the browser runs the callbacks queued for this frame *)
| AnimationFrame (d : Dom)
(** the oldest pending timer fires *)
| TimerFires
(** [dt] milliseconds pass *)
| Tick (dt : nat).

Definition with_frames (fs : list frame_cb) (s : Menu) : Menu :=
  with_watcher
    {| submenuMutationObserver := submenuMutationObserver (watcher s);
       observing := observing (watcher s); nextObserver := nextObserver (watcher s);
       frames := fs; timers := timers (watcher s); now := now (watcher s) |} s.

Definition with_timers (ts : list nat) (s : Menu) : Menu :=
  with_watcher
    {| submenuMutationObserver := submenuMutationObserver (watcher s);
       observing := observing (watcher s); nextObserver := nextObserver (watcher s);
       frames := frames (watcher s); timers := ts; now := now (watcher s) |} s.

Definition with_now (t : nat) (s : Menu) : Menu :=
  with_watcher
    {| submenuMutationObserver := submenuMutationObserver (watcher s);
       observing := observing (watcher s); nextObserver := nextObserver (watcher s);
       frames := frames (watcher s); timers := timers (watcher s); now := t |} s.

(** One turn of the event loop; [None] when the browser cannot take that
    turn now.  A timer callback runs when the timer is due or any time
    later, never earlier, and the timers run oldest first (all have the
    same delay). *)
Definition step (i : input) (s : Menu) : option Menu :=
  match i with
  | Activate d event => Some (activate d event s)
  | Deactivate d event => Some (deactivate d event s)
  | OverflowPointerLeave d => Some (overflowSubmenuListener d s)
  | Disconnected => Some (disconnectedCallback s)
  | Mutation o =>
      match observing (watcher s) !! o with
      | Some (submenu, _) => Some (mutationCallback submenu s)
      | None => None
      end
  | AnimationFrame d =>
      Some (fold_left (fun s cb => frameCallback d cb s)
              (frames (watcher s)) (with_frames [] s))
  | TimerFires =>
      match timers (watcher s) with
      | due :: rest =>
          if (due <=? now (watcher s))%nat
          then Some (timeoutCallback (with_timers rest s))
          else None
      | [] => None
      end
  | Tick dt => Some (with_now (now (watcher s) + dt)%nat s)
  end.

(** [steps ins s s']: the inputs [ins], taken in order, lead from [s] to [s']. *)
Inductive steps : list input → Menu → Menu → Prop :=
| steps_nil s : steps [] s s
| steps_cons i ins s s1 s2 :
    step i s = Some s1 → steps ins s1 s2 → steps (i :: ins) s s2.

(** The component right after [connectedCallback]: nothing active, no
    item marked expanded, no watcher. *)
Definition initial (s : Menu) : Prop :=
  activeItem (flags s) = None ∧
  (∀ i, ariaExpanded (flags s) !! i ≠ Some "true") ∧
  submenuMutationObserver (watcher s) = None ∧
  observing (watcher s) = ∅ ∧
  timers (watcher s) = [].

Definition reachable (s : Menu) : Prop :=
  ∃ s0 ins, initial s0 ∧ steps ins s0 s.

(** Executable run, for concrete scenarios. *)
Fixpoint run (ins : list input) (s : Menu) : option Menu :=
  match ins with
  | [] => Some s
  | i :: ins => step i s ≫= run ins
  end.

(** Shorthands for what the claims talk about. *)
Definition expanded (s : Menu) (i : elem) : Prop :=
  ariaExpanded (flags s) !! i = Some "true".

Definition published_height (header : elem) (s : Menu) : option string :=
  styleProps (styles s) !! (header, "--submenu-height").


(** Several writes in a row. *)
Definition performs (l : list effect) (s : Menu) : Menu :=
  fold_left (fun s e => perform e s) l s.

(** The part of the state a write goes to; dispatching the hover event
    writes nothing. *)
Inductive part := Signal | OfFlags | OfStyles | OfWatcher.

Definition part_of (e : effect) : part :=
  match e with
  | DispatchMegaMenuHover => Signal
  | SetOverflowExpanded _ | SetActiveItem _ | SetHostAriaExpanded _
  | SetAriaExpanded _ _ | SetDataActive _ | DeleteDataActive _ => OfFlags
  | SetDisplay _ _ | RemoveDisplay _ | SetStyleProperty _ _ _
  | SetHostStyleProperty _ _ => OfStyles
  | ObserverDisconnect _ | ClearObserverField | ObserverObserve _ _
  | SetTimeout _ | RequestAnimationFrame _ => OfWatcher
  end.

(** The write [e] goes to part [p]. *)
Definition writes (p : part) (e : effect) : Prop := part_of e = p.

(** The write leaves the active item and the ARIA-expanded flags alone. *)
Definition keeps_selection (e : effect) : Prop :=
  match e with
  | SetActiveItem _ | SetHostAriaExpanded _ | SetAriaExpanded _ _ => False
  | _ => True
  end.

(** What [activate] writes once the active item is switched: watcher and
    style writes, and the mark on the submenu. *)
Definition opens_submenu (e : effect) : Prop :=
  part_of e = OfWatcher ∨ part_of e = OfStyles ∨ ∃ sm, e = SetDataActive sm.

(** Every item whose expanded flag is "true" is the active item. *)
Definition expanded_is_active (s : Menu) : Prop :=
  ∀ i, ariaExpanded (flags s) !! i = Some "true" → activeItem (flags s) = Some i.

(** [emits K s s']: [s'] comes from [s] by writes that all satisfy [K]. *)
Definition emits (K : effect → Prop) (s s' : Menu) : Prop :=
  ∃ l, s' = performs l s ∧ Forall K l.

(** The nested submenus of the links listed in the overflow panel. *)
Definition nested_submenus (d : Dom) (links : list elem) : list elem :=
  omap (querySelector_submenu d) links.

(** The inline [display] values with the given submenus hidden, and with
    their inline [display] removed again. *)
Definition hide_all (sms : list elem) (display : gmap elem string) : gmap elem string :=
  fold_left (fun m sm => <[sm := "none"]> m) sms display.

Definition unhide_all (sms : list elem) (display : gmap elem string) : gmap elem string :=
  fold_left (fun m sm => delete sm m) sms display.

(** The inline [display] values under which the listed links of the
    overflow panel are measured. *)
Definition display_while_measuring (d : Dom) (display : gmap elem string) : gmap elem string :=
  match overflowMenu d ≫= assignedElements d with
  | Some links => hide_all (nested_submenus d links) display
  | None => display
  end.

(** Every attached watcher is the one the component holds. *)
Definition watcher_held (w : Watcher) : Prop :=
  ∀ o x, observing w !! o = Some x → submenuMutationObserver w = Some o.

(** The cleanup timer set when a watcher was attached is still pending
    while the watcher is attached. *)
Definition watcher_timed (w : Watcher) : Prop :=
  ∀ o sm t0, observing w !! o = Some (sm, t0) → (t0 + 500)%nat ∈ timers w.

(** What [#cleanupMutationObserver] writes. *)
Definition cleanup_effects (w : Watcher) : list effect :=
  match submenuMutationObserver w with
  | Some o => [ObserverDisconnect o; ClearObserverField]
  | None => [ClearObserverField]
  end.

(** What a handler added to the trace. *)
Definition new_effects (s s' : Menu) : list effect :=
  drop (length (trace s)) (trace s').

(** How often an effect occurs in a trace. *)
Definition count (e : effect) (t : list effect) : nat :=
  length (filter (fun x => x = e) t).

(** *** Sample documents *)

(** A menu with two top-level entries A (li 10, link 11, submenu 12 with
    a link 13 inside) and B (li 20, link 21, submenu 22), the "More"
    trigger (li 30), and two overflowing entries: li 40 with link 41 and
    no submenu, li 45 with link 46 and submenu 47.  The entries are
    children of the list 2; 50 is the overflow panel, 1 the header
    component and 60 its top row.  Hiding submenu 47 shrinks the panel
    from 300px to 120px. *)
Definition sample_dom (focused : option elem) (listHovered panelHovered : bool) : Dom :=
  {| headerComponent := Some 1%positive;
     overflowMenu := Some 50%positive;
     overflowListHovered := listHovered;
     hovered := fun el => if decide (el = 50%positive) then panelHovered else false;
     slot := fun el =>
       if decide (el = 30%positive) then "more"
       else if decide (el = 40%positive) then "overflow"
       else if decide (el = 45%positive) then "overflow"
       else EmptyString;
     parentElement := fun el =>
       if decide (el ∈ [11; 12]%positive) then Some 10%positive
       else if decide (el = 13%positive) then Some 12%positive
       else if decide (el ∈ [21; 22]%positive) then Some 20%positive
       else if decide (el = 41%positive) then Some 40%positive
       else if decide (el ∈ [46; 47]%positive) then Some 45%positive
       else if decide (el ∈ [10; 20; 30; 40; 45]%positive) then Some 2%positive
       else None;
     querySelector_slot_overflow := fun el =>
       if decide (el = 2%positive) then Some 40%positive else None;
     querySelector_menuitem := fun el =>
       if decide (el = 10%positive) then Some 11%positive
       else if decide (el = 20%positive) then Some 21%positive
       else if decide (el = 40%positive) then Some 41%positive
       else if decide (el = 45%positive) then Some 46%positive
       else None;
     querySelector_submenu := fun el =>
       if decide (el = 10%positive) then Some 12%positive
       else if decide (el = 20%positive) then Some 22%positive
       else if decide (el = 45%positive) then Some 47%positive
       else None;
     isHTMLElement := fun _ => true;
     contains := fun a b =>
       bool_decide (a = b) || bool_decide (a = 12%positive ∧ b = 13%positive);
     activeElement := focused;
     assignedElements := fun el =>
       if decide (el = 50%positive) then Some [40; 45]%positive else None;
     offsetHeight := fun display el =>
       if decide (el = 50%positive) then
         (if decide (display !! 47%positive = Some "none") then 120 else 300)
       else if decide (el = 12%positive) then 200
       else if decide (el = 22%positive) then 180
       else if decide (el = 47%positive) then 150
       else if decide (el = 1%positive) then 64
       else if decide (el = 60%positive) then 40
       else 0;
     overlapBottomRow := false;
     headerRowTop := Some 60%positive |}.

(** Nothing focused, nothing hovered. *)
Definition calm : Dom := sample_dom None false false.

(** The component right after it was connected. *)
Definition idle : Menu :=
  {| flags := {| activeItem := None; hostAriaExpanded := None; ariaExpanded := ∅;
                 overflowExpanded := None; dataActive := ∅ |};
     styles := {| inlineDisplay := ∅; styleProps := ∅; hostStyle := ∅ |};
     watcher := {| submenuMutationObserver := None; observing := ∅;
                   nextObserver := 0; frames := []; timers := []; now := 0 |};
     trace := [] |}.

(** The pointer enters the entry [li]. *)
Definition pointerenter (li : elem) : Event :=
  {| target := Some li; relatedTarget := None; type := "pointerenter" |}.

(** The pointer leaves the entry [li] towards [to]. *)
Definition pointerleave (li : elem) (to : option elem) : Event :=
  {| target := Some li; relatedTarget := to; type := "pointerleave" |}.

(** *** Further notions *)

(** The active item carries the expanded flag, and so does the menu. *)
Definition active_is_expanded (s : Menu) : Prop :=
  ∀ i, activeItem (flags s) = Some i →
       ariaExpanded (flags s) !! i = Some "true" ∧
       hostAriaExpanded (flags s) = Some "true".

(** The input is an activation. *)
Definition is_activation (i : input) : bool :=
  match i with Activate _ _ => true | _ => false end.


(** The published full-open header height and submenu opacity. *)
Definition published_full_height (header : elem) (s : Menu) : option string :=
  styleProps (styles s) !! (header, "--full-open-header-height").

Definition published_opacity (s : Menu) : option string :=
  hostStyle (styles s) !! "--submenu-opacity".

(** The height of the header that stays visible above an open submenu,
    as [#setFullOpenHeaderHeight] reads it. *)
Definition headerVisibleHeight (d : Dom) (s : Menu) (header : elem) : Z :=
  if overlapBottomRow d && Z.ltb 0 (height d s header)
  then default 0 (height d s <$> headerRowTop d)
  else height d s header.

(** [#preloadImages].  [loading] holds the [loading] attribute of the
    [img] elements inside the component that have one;
    [querySelectorAll('img[loading="lazy"]')] selects those whose value
    is ["lazy"], and [removeAttribute('loading')] is called on each. *)
Definition lazy_images (loading : gmap elem string) : list elem :=
  (map_to_list (filter (fun kv => kv.2 = "lazy") loading)).*1.

Definition preloadImages (loading : gmap elem string) : gmap elem string :=
  fold_left (fun m image => delete image m) (lazy_images loading) loading.

(** The sample menu with entries that have no submenus. *)
Definition bare : Dom :=
  {| headerComponent := headerComponent calm;
     overflowMenu := overflowMenu calm;
     overflowListHovered := false;
     hovered := hovered calm;
     slot := slot calm;
     parentElement := parentElement calm;
     querySelector_slot_overflow := querySelector_slot_overflow calm;
     querySelector_menuitem := querySelector_menuitem calm;
     querySelector_submenu := fun _ => None;
     isHTMLElement := isHTMLElement calm;
     contains := contains calm;
     activeElement := None;
     assignedElements := assignedElements calm;
     offsetHeight := offsetHeight calm;
     overlapBottomRow := false;
     headerRowTop := headerRowTop calm |}.

End HeaderMenu.
(** * Properties of the cart drawer *)

Section CartDrawerFacts.
Import CartDrawer.

(** Comparison of numbers is antisymmetric, NaN being unordered. *)
Lemma SFcompare_antisym (x y : number) :
  SFcompare x y = CompOpp <$> SFcompare y x.
Proof.
  destruct x as [sx|sx| |sx mx ex], y as [sy|sy| |sy my ey];
    try (destruct sx); try (destruct sy); simpl; try reflexivity.
  all: pose proof (Pos.compare_cont_antisym my mx Eq) as Hm; simpl in Hm.
  all: rewrite <- Hm, (Z.compare_antisym ey ex).
  all: destruct (ey ?= ex)%Z; simpl; try reflexivity.
  all: destruct (Pos.compare_cont Eq my mx); reflexivity.
Qed.

(** A number compares with every number: only NaN is unordered. *)
Lemma SFcompare_half_total (x : number) :
  is_nan x = false → is_Some (SFcompare x num_half).
Proof.
  destruct x as [sx|sx| |sx mx ex]; intros H; try discriminate H;
    unfold num_half, SFcompare; try destruct sx; eexists; reflexivity.
Qed.

(** For a ratio that is a number, "not above the threshold" and "at most
    the threshold" are the same test. *)
Lemma not_gt_is_le (x : number) :
  is_nan x = false → num_gt x summaryThreshold = negb (num_le x summaryThreshold).
Proof.
  intros Hx. unfold num_gt, num_le, summaryThreshold, SFltb, SFleb.
  rewrite (SFcompare_antisym num_half x).
  destruct (SFcompare_half_total x Hx) as [c Hc]. rewrite Hc.
  destruct c; reflexivity.
Qed.

(** NaN is neither above nor at most the threshold. *)
Lemma nan_unordered (x : number) :
  is_nan x = true → num_gt x summaryThreshold = false ∧ num_le x summaryThreshold = false.
Proof. destruct x; try discriminate. split; reflexivity. Qed.

Lemma sticky_setAttribute (s : Drawer) (value : string) :
  is_Some (refs_dialog s) →
  sticky (setAttribute "cart-summary-sticky" value s) = Some value.
Proof.
  intros [d Hd]. unfold sticky, setAttribute. rewrite Hd. simpl.
  apply lookup_insert_eq.
Qed.

(** C2, as the code has it: on every open of a drawer whose dialog
    exists, the sticky-summary attribute is written.  It is "false"
    when a region is missing; with both regions it is "false" exactly
    when summaryHeight / drawerHeight > 0.5 and "true" otherwise.  As
    long as the ratio is a number, "true" therefore means ratio <= 0.5;
    a ratio that is not a number (0 / 0) gives "true" as well. *)
Theorem sticky_summary_flag (v : View) (s : Drawer) :
  is_Some (refs_dialog s) →
  let s' := updateStickyState v s in
  (content v = None ∨ summary v = None → sticky s' = Some "false") ∧
  (∀ sm, is_Some (content v) → summary v = Some sm →
     let ratio := num_div (rectHeight v sm) (dialogHeight v) in
     (sticky s' = Some "false" ↔ num_gt ratio summaryThreshold = true) ∧
     (sticky s' = Some "true" ↔ num_gt ratio summaryThreshold = false) ∧
     (is_nan ratio = false →
        (sticky s' = Some "true" ↔ num_le ratio summaryThreshold = true)) ∧
     (is_nan ratio = true → sticky s' = Some "true")).
Proof.
  intros Hd s'. subst s'. unfold updateStickyState.
  destruct Hd as [dlg Hd]. rewrite Hd. split.
  - intros [Hc | Hs].
    + rewrite Hc. apply sticky_setAttribute. eauto.
    + rewrite Hs. destruct (content v); apply sticky_setAttribute; eauto.
  - intros sm [c Hc] Hs. rewrite Hc, Hs.
    set (ratio := num_div (rectHeight v sm) (dialogHeight v)).
    rewrite sticky_setAttribute by eauto.
    pose proof (not_gt_is_le ratio) as Hle.
    pose proof (nan_unordered ratio) as Hnan.
    destruct (num_gt ratio summaryThreshold) eqn:Hgt;
      destruct (num_le ratio summaryThreshold) eqn:Hl;
      destruct (is_nan ratio) eqn:Hn;
      repeat split; intros; try discriminate; try reflexivity; try congruence;
      try (specialize (Hle eq_refl); discriminate);
      try (destruct (Hnan eq_refl); discriminate).
Qed.

(** A cart with items in a 800px drawer: a 400px summary is sticky, a
    401px one is not. *)
Lemma sticky_summary_flag_witness :
  sticky (updateStickyState (view_of true (num_of_pos 400) (num_of_pos 800)) fresh)
    = Some "true" ∧
  sticky (updateStickyState (view_of true (num_of_pos 401) (num_of_pos 800)) fresh)
    = Some "false" ∧
  sticky (updateStickyState (view_empty_cart true) fresh) = Some "false".
Proof.
  assert (Hd : is_Some (refs_dialog fresh)) by (simpl; eauto).
  split; [|split].
  - destruct (sticky_summary_flag (view_of true (num_of_pos 400) (num_of_pos 800)) fresh Hd)
      as [_ H].
    destruct (H 2%positive) as (_ & _ & Hle & _); [simpl; eauto | reflexivity |].
    apply Hle; vm_compute; reflexivity.
  - destruct (sticky_summary_flag (view_of true (num_of_pos 401) (num_of_pos 800)) fresh Hd)
      as [_ H].
    destruct (H 2%positive) as (Hgt & _); [simpl; eauto | reflexivity |].
    apply Hgt; vm_compute; reflexivity.
  - destruct (sticky_summary_flag (view_empty_cart true) fresh Hd) as [H _].
    apply H. right. reflexivity.
Defined.

(** C2, as stated, fails where the drawer has no height: both regions
    exist, 0 / 0 is not a number, so the ratio is not <= 0.5, and yet
    the attribute is set to "true". *)
Lemma sticky_true_though_ratio_not_le_half :
  let v := view_of true num_zero num_zero in
  is_Some (content v) ∧ summary v = Some 2%positive ∧
  num_le (num_div (rectHeight v 2%positive) (dialogHeight v)) summaryThreshold = false ∧
  sticky (updateStickyState v fresh) = Some "true".
Proof. vm_compute. repeat split; eauto. Qed.


(** *** History synchronisation *)

Lemma new_effects_app (s s' : Drawer) (l : list effect) :
  trace s' = trace s ++ l → new_effects s s' = l.
Proof. intros H. unfold new_effects. rewrite H. apply drop_app_length. Qed.

(** Reduction of the state updates, leaving maps and sets alone. *)
Ltac drawer_simpl :=
  cbn [refs_dialog history historyAbortController popstateListener aborted
       nextController listening trace entries index pendingBack
       dlg_open dlg_attrs dlg_style
       emit with_dialog with_history with_listening set_open abort
       abort_history_controller new_controller_and_listen back pushState
       cartDrawerOpen_of negb andb app length] in *.

(** The sticky-summary recompute only touches the dialog and the trace. *)
Lemma updateStickyState_frame (v : View) (s : Drawer) :
  let s' := updateStickyState v s in
  history s' = history s ∧ listening s' = listening s ∧
  popstateListener s' = popstateListener s ∧
  historyAbortController s' = historyAbortController s ∧
  nextController s' = nextController s ∧
  is_open s' = is_open s.
Proof.
  unfold updateStickyState, setAttribute, is_open.
  destruct (refs_dialog s) as [d|] eqn:Hd; simpl; [|rewrite Hd; tauto].
  destruct (content v), (summary v); rewrite ?Hd; simpl; tauto.
Qed.

Lemma handleHistoryOpen_trace (v : View) (s : Drawer) :
  isMobileBreakpoint v = true →
  trace (handleHistoryOpen v s) =
    trace s ++ (if tagged s then [] else [HistoryPushState (StateObj true)])
            ++ [AddPopstateListener (nextController s)].
Proof.
  intros Hm. unfold handleHistoryOpen, tagged. rewrite Hm. simpl.
  destruct (cartDrawerOpen_of (history_state (history s))); simpl.
  - reflexivity.
  - rewrite <- app_assoc. reflexivity.
Qed.

Lemma handleHistoryOpen_history (v : View) (s : Drawer) :
  isMobileBreakpoint v = true →
  history (handleHistoryOpen v s) =
    if tagged s then history s else pushState (StateObj true) (history s).
Proof.
  intros Hm. unfold handleHistoryOpen, tagged. rewrite Hm. simpl.
  destruct (cartDrawerOpen_of (history_state (history s))); reflexivity.
Qed.

Lemma history_state_pushState (st : hstate) (h : History) :
  history_state (pushState st h) = st.
Proof.
  unfold history_state, pushState. simpl.
  rewrite lookup_app_r by reflexivity. rewrite Nat.sub_diag. reflexivity.
Qed.

Lemma abort_history_controller_frame (s : Drawer) :
  history (abort_history_controller s) = history s.
Proof. unfold abort_history_controller. destruct (historyAbortController s); reflexivity. Qed.

Lemma handleHistoryClose_trace (s : Drawer) :
  trace (handleHistoryClose s) =
    trace s ++ match historyAbortController s with Some c => [Abort c] | None => [] end
            ++ (if tagged s then [HistoryBack] else []).
Proof.
  unfold handleHistoryClose, tagged. rewrite abort_history_controller_frame.
  unfold abort_history_controller.
  destruct (cartDrawerOpen_of (history_state (history s)));
    destruct (historyAbortController s); simpl;
    rewrite <- ?app_assoc, ?app_nil_r; reflexivity.
Qed.

Lemma cycle_settled (v : View) (s : Drawer) :
  isMobileBreakpoint v = true → settled s →
  let s' := open_close_cycle v s in
  settled s' ∧ index (history s') = index (history s) ∧
  entries (history s') = take (S (index (history s))) (entries (history s)) ++ [StateObj true].
Proof.
  intros Hm (Hl & Hp & Hb & Hi & Ht).
  destruct (updateStickyState_frame v s) as (Fh & Fl & Fp & _ & Fn & _).
  set (s0 := updateStickyState v s) in *.
  assert (Hlen : length (take (S (index (history s))) (entries (history s)))
                 = S (index (history s))) by (rewrite length_take; lia).
  unfold open_close_cycle, dispatchDialogOpen. rewrite Hl. fold s0.
  unfold handleHistoryOpen. rewrite Hm.
  unfold tagged in Ht. rewrite Fh, Ht. drawer_simpl.
  unfold dispatchDialogClose. drawer_simpl. rewrite Fl, Hl.
  unfold handleHistoryClose. drawer_simpl.
  rewrite history_state_pushState. drawer_simpl.
  unfold settleBack. drawer_simpl. rewrite Hb.
  unfold traverse. cbn [Z.eqb]. drawer_simpl.
  rewrite Hlen, length_app, Hlen. drawer_simpl.
  replace (Z.leb 0 (Z.of_nat (S (index (history s))) + -1)) with true
    by (symmetry; apply Z.leb_le; lia).
  replace (Z.ltb (Z.of_nat (S (index (history s))) + -1)
             (Z.of_nat (S (index (history s)) + 1)%nat)) with true
    by (symmetry; apply Z.ltb_lt; lia).
  replace (Z.to_nat (Z.of_nat (S (index (history s))) + -1)) with (index (history s)) by lia.
  drawer_simpl. unfold dispatchPopState. drawer_simpl. rewrite Fp, Hp.
  rewrite decide_True by reflexivity.
  unfold settled, tagged. drawer_simpl. rewrite Fl, Fp, Hp.
  rewrite decide_True by reflexivity.
  split; [|split; reflexivity].
  split; [assumption|]. split; [reflexivity|]. split; [reflexivity|]. split.
  - rewrite length_app, Hlen. simpl. lia.
  - unfold history_state. drawer_simpl.
    rewrite lookup_app_l by (rewrite Hlen; lia).
    rewrite lookup_take_lt by lia.
    unfold history_state in Ht. exact Ht.
Qed.

Lemma take_prefix_again (e : list hstate) (i : nat) (st : hstate) :
  (i < length e)%nat → take (S i) (take (S i) e ++ [st]) = take (S i) e.
Proof.
  intros Hi. rewrite take_app_le by (rewrite length_take; lia).
  rewrite take_take. f_equal. lia.
Qed.

Lemma cycles_settled (vs : list View) (v : View) (s : Drawer) :
  Forall (λ v, isMobileBreakpoint v = true) (v :: vs) → settled s →
  let s' := fold_left (λ s v, open_close_cycle v s) (v :: vs) s in
  settled s' ∧ index (history s') = index (history s) ∧
  entries (history s') = take (S (index (history s))) (entries (history s)) ++ [StateObj true].
Proof.
  revert v s. induction vs as [|w vs IH]; intros v s Hall Hs.
  - simpl. apply cycle_settled; [by inversion Hall | assumption].
  - inversion Hall as [|? ? Hv Hrest]; subst.
    destruct (cycle_settled v s Hv Hs) as (Hs1 & Hi1 & He1).
    destruct (IH w (open_close_cycle v s) Hrest Hs1) as (Hs2 & Hi2 & He2).
    change (fold_left (λ s v, open_close_cycle v s) (v :: w :: vs) s)
      with (fold_left (λ s v, open_close_cycle v s) (w :: vs) (open_close_cycle v s)).
    cbv zeta. split; [exact Hs2|]. split; [congruence|].
    rewrite He2, Hi1, He1. rewrite take_prefix_again; [reflexivity|].
    destruct Hs as (_ & _ & _ & Hi & _). exact Hi.
Qed.

(** C3: on a narrow viewport an open pushes exactly one history entry,
    tagged as drawer-open, and none when the current entry is tagged
    already; a close asks for exactly one back navigation when the
    current entry is tagged, and for none otherwise; and however often
    the drawer is opened and closed, the history ends as after the first
    round: the current entry is the one the user was on, followed by the
    single tagged entry. *)
Theorem history_entries_do_not_accumulate :
  (∀ v s, isMobileBreakpoint v = true →
     let s' := handleHistoryOpen v s in
     pushes (new_effects s s') = (if tagged s then 0 else 1)%nat ∧
     (tagged s = true → history s' = history s) ∧
     (tagged s = false →
        history s' = pushState (StateObj true) (history s) ∧ tagged s' = true)) ∧
  (∀ s, let s' := handleHistoryClose s in
     backs (new_effects s s') = (if tagged s then 1 else 0)%nat) ∧
  (∀ v vs s, Forall (λ v, isMobileBreakpoint v = true) (v :: vs) → settled s →
     let s' := fold_left (λ s v, open_close_cycle v s) (v :: vs) s in
     settled s' ∧
     index (history s') = index (history s) ∧
     entries (history s') =
       take (S (index (history s))) (entries (history s)) ++ [StateObj true]).
Proof.
  split; [|split].
  - intros v s Hm s'. subst s'.
    pose proof (handleHistoryOpen_history v s Hm) as Hh.
    split; [|split].
    + rewrite (new_effects_app _ _ _ (handleHistoryOpen_trace v s Hm)).
      destruct (tagged s); reflexivity.
    + intros Ht. rewrite Hh, Ht. reflexivity.
    + intros Ht. rewrite Ht in Hh. split; [exact Hh|].
      unfold tagged. rewrite Hh, history_state_pushState. reflexivity.
  - intros s s'. subst s'.
    rewrite (new_effects_app _ _ _ (handleHistoryClose_trace s)).
    destruct (tagged s), (historyAbortController s); reflexivity.
  - intros v vs s Hall Hs. apply cycles_settled; assumption.
Qed.

(** Opening and closing the drawer twice on a phone, on a fresh page. *)
Lemma history_entries_do_not_accumulate_witness :
  let v := view_of true (num_of_pos 100) (num_of_pos 800) in
  let s' := fold_left (λ s v, open_close_cycle v s) [v; v] fresh in
  pushes (new_effects fresh (handleHistoryOpen v fresh))
    = (if tagged fresh then 0 else 1)%nat ∧
  index (history s') = index (history fresh) ∧
  entries (history s') =
    take (S (index (history fresh))) (entries (history fresh)) ++ [StateObj true].
Proof.
  destruct history_entries_do_not_accumulate as (Hopen & _ & Hcycles).
  intros v s'. split.
  - destruct (Hopen v fresh eq_refl) as (Hp & _). exact Hp.
  - assert (Hs : settled fresh).
    { unfold settled. repeat split. unfold fresh. simpl. lia. }
    assert (Hall : Forall (λ v, isMobileBreakpoint v = true) [v; v])
      by (repeat constructor).
    destruct (Hcycles v [v] fresh Hall Hs) as (_ & Hi & He).
    split; [exact Hi | exact He].
Defined.

(** The same two rounds, run: one entry was pushed per round, one back
    navigation asked for per round, and the history is back on the first
    entry with a single tagged entry ahead. *)
Example two_rounds_on_a_phone :
  let v := view_of true (num_of_pos 100) (num_of_pos 800) in
  let s' := open_close_cycle v (open_close_cycle v fresh) in
  history s' = {| entries := [StateNull; StateObj true]; index := 0; pendingBack := 0 |} ∧
  pushes (trace s') = 2%nat ∧ backs (trace s') = 2%nat.
Proof. vm_compute. repeat split. Qed.

(** *** Back navigation *)

Lemma updateStickyState_dialog (v : View) (s : Drawer) (d : Dialog) :
  refs_dialog s = Some d →
  ∃ d', refs_dialog (updateStickyState v s) = Some d' ∧
        dlg_open d' = dlg_open d ∧ dlg_style d' = dlg_style d.
Proof.
  intros Hd. unfold updateStickyState, setAttribute. rewrite Hd.
  destruct (content v), (summary v); rewrite ?Hd; drawer_simpl; eauto.
Qed.

Lemma handleHistoryOpen_frame (v : View) (s : Drawer) :
  refs_dialog (handleHistoryOpen v s) = refs_dialog s ∧
  listening (handleHistoryOpen v s) = listening s.
Proof.
  unfold handleHistoryOpen.
  destruct (isMobileBreakpoint v); [|tauto].
  destruct (cartDrawerOpen_of (history_state (history s))); drawer_simpl; tauto.
Qed.

Lemma handleHistoryOpen_listens (v : View) (s : Drawer) :
  isMobileBreakpoint v = true → is_Some (popstateListener (handleHistoryOpen v s)).
Proof.
  intros Hm. unfold handleHistoryOpen. rewrite Hm.
  destruct (cartDrawerOpen_of (history_state (history s))); drawer_simpl;
    destruct (popstateListener s); eauto.
Qed.

Lemma handleHistoryClose_frame (s : Drawer) :
  refs_dialog (handleHistoryClose s) = refs_dialog s ∧
  ∃ mid, trace (handleHistoryClose s) = trace s ++ mid.
Proof.
  split.
  - unfold handleHistoryClose, abort_history_controller.
    destruct (historyAbortController s);
      match goal with |- context [if ?b then _ else _] => destruct b end;
      reflexivity.
  - rewrite handleHistoryClose_trace. eauto.
Qed.

(** The popstate handler on an open drawer: the close runs under
    [closing animation: none], and the property is gone afterwards. *)
Lemma handlePopState_open (s : Drawer) (d : Dialog) :
  refs_dialog s = Some d → dlg_open d = true → listening s = true →
  let s' := handlePopState s in
  is_open s' = false ∧
  (∃ mid, trace s' = trace s ++
      StyleSetProperty closing_animation "none" ::
      DialogClosed (Some "none") :: mid ++ [StyleRemoveProperty closing_animation]) ∧
  (∀ d', refs_dialog s' = Some d' → dlg_style d' !! closing_animation = None).
Proof.
  intros Hd Ho Hl. unfold handlePopState. rewrite Hd, Ho.
  unfold style_setProperty. rewrite Hd.
  unfold closeDialog. drawer_simpl. unfold set_open. drawer_simpl.
  rewrite lookup_insert_eq.
  unfold dispatchDialogClose. drawer_simpl. rewrite Hl.
  match goal with |- context [handleHistoryClose ?x] =>
    destruct (handleHistoryClose_frame x) as (Hr & mid & Ht);
    set (s2 := handleHistoryClose x) in *
  end.
  drawer_simpl.
  unfold style_removeProperty. rewrite Hr. drawer_simpl.
  unfold is_open. drawer_simpl. split; [reflexivity|]. split.
  - exists mid. rewrite Ht. rewrite <- !app_assoc. reflexivity.
  - intros d' [= <-]. drawer_simpl. apply lookup_delete_eq.
Qed.

Lemma handleHistoryClose_listening (s : Drawer) :
  listening (handleHistoryClose s) = listening s.
Proof.
  unfold handleHistoryClose, abort_history_controller.
  destruct (historyAbortController s);
    match goal with |- context [if ?b then _ else _] => destruct b end;
    reflexivity.
Qed.

(** Closing the dialog leaves it closed, whoever asked for it. *)
Lemma closeDialog_closed (s : Drawer) :
  listening (closeDialog s) = listening s ∧ is_open (closeDialog s) = false.
Proof.
  unfold closeDialog, is_open.
  destruct (refs_dialog s) as [d|] eqn:Hd; [|by rewrite Hd].
  unfold dispatchDialogClose, set_open. rewrite Hd. drawer_simpl.
  destruct (listening s) eqn:Hl; [|drawer_simpl; by split].
  match goal with |- context [handleHistoryClose ?x] =>
    destruct (handleHistoryClose_frame x) as (Hr & _);
    rewrite Hr, (handleHistoryClose_listening x)
  end.
  drawer_simpl. by split.
Qed.

(** Showing the dialog on a narrow viewport registers the popstate
    listener, if it is not registered yet. *)
Lemma showDialog_watched (v : View) (s : Drawer) :
  isMobileBreakpoint v = true →
  navigation_watched s → navigation_watched (showDialog v s).
Proof.
  intros Hm (Hl & Hw). unfold showDialog.
  destruct (refs_dialog s) as [d|] eqn:Hd; [|by split].
  unfold dispatchDialogOpen, set_open. rewrite Hd. drawer_simpl. rewrite Hl.
  match goal with |- navigation_watched (handleHistoryOpen v (updateStickyState v ?x)) =>
    set (s0 := x)
  end.
  destruct (updateStickyState_frame v s0) as (_ & Fl & _).
  destruct (handleHistoryOpen_frame v (updateStickyState v s0)) as (_ & Hl1).
  split.
  - rewrite Hl1, Fl. exact Hl.
  - intros _. by apply handleHistoryOpen_listens.
Qed.

Lemma handlePopState_watched (s : Drawer) :
  navigation_watched s → navigation_watched (handlePopState s).
Proof.
  intros (Hl & Hw).
  destruct (refs_dialog s) as [d|] eqn:Hd;
    [|unfold handlePopState; rewrite Hd; by split].
  destruct (dlg_open d) eqn:Ho;
    [|unfold handlePopState; rewrite Hd, Ho; by split].
  destruct (handlePopState_open s d Hd Ho Hl) as (Hclosed & _ & _).
  split; [|cbv zeta in Hclosed; rewrite Hclosed; discriminate].
  unfold handlePopState. rewrite Hd, Ho.
  unfold style_removeProperty.
  match goal with |- context [closeDialog ?x] =>
    pose proof (proj1 (closeDialog_closed x)) as Hc;
    assert (Hx : listening x = true)
      by (unfold style_setProperty; rewrite Hd; exact Hl);
    destruct (refs_dialog (closeDialog x)); drawer_simpl; congruence
  end.
Qed.

Lemma traverse_watched (delta : Z) (s : Drawer) :
  navigation_watched s → navigation_watched (traverse delta s).
Proof.
  intros Hw. unfold traverse.
  destruct (Z.eqb delta 0); [exact Hw|].
  destruct (_ && _); [|exact Hw].
  unfold dispatchPopState. drawer_simpl.
  destruct (popstateListener s); [apply handlePopState_watched|]; exact Hw.
Qed.

(** Every event that leaves the component attached and opens the drawer
    on a narrow viewport only keeps the listener with the open dialog. *)
Lemma step_watched (e : event) (s : Drawer) :
  on_phone e = true → navigation_watched s → navigation_watched (step e s).
Proof.
  intros He Hw. destruct e as [| |v|v| |delta|]; simpl in He; try discriminate He.
  - destruct Hw as (Hl & Hw). unfold step, connectedCallback. drawer_simpl.
    destruct (cartDrawerOpen_of _); by split.
  - unfold step. rewrite (proj1 Hw). unfold handleCartAdd.
    destruct (autoOpen v); [by apply showDialog_watched | exact Hw].
  - by apply showDialog_watched.
  - destruct Hw as (Hl & _). unfold step, close.
    destruct (closeDialog_closed s) as (Hl' & Hc). split; [congruence|].
    rewrite Hc. discriminate.
  - by apply traverse_watched.
  - unfold step, settleBack.
    destruct (pendingBack (history s)); [exact Hw|].
    by apply traverse_watched.
Qed.

Lemma run_watched (es : list event) (s : Drawer) :
  Forall (λ e, on_phone e = true) es →
  navigation_watched s → navigation_watched (run es s).
Proof.
  revert s. induction es as [|e es IH]; intros s Hall Hw; [exact Hw|].
  inversion Hall as [|? ? He Hes]; subst.
  apply (IH (step e s) Hes). by apply step_watched.
Qed.

(** C9: while the component stays attached and the drawer is opened on
    narrow viewports (where the history synchronisation applies), a back
    or forward navigation that occurs while the dialog is open closes
    the drawer with the closing animation switched off, and once the
    close is done the switch is removed again, so later closes animate
    normally.  The navigation may come at any time: the drawer may have
    been opened, closed and reopened, and the user may have navigated,
    before. *)
Theorem back_navigation_closes_without_animation
    (s : Drawer) (es : list event) (delta : Z) :
  navigation_watched s →
  Forall (λ e, on_phone e = true) es →
  let s1 := run es s in
  is_open s1 = true →
  delta ≠ 0 →
  0 <= Z.of_nat (index (history s1)) + delta < Z.of_nat (length (entries (history s1))) →
  let s2 := step (UserNavigates delta) s1 in
  is_open s2 = false ∧
  (∃ mid, new_effects s1 s2 =
      StyleSetProperty closing_animation "none" ::
      DialogClosed (Some "none") :: mid ++ [StyleRemoveProperty closing_animation]) ∧
  (∀ d', refs_dialog s2 = Some d' → dlg_style d' !! closing_animation = None).
Proof.
  intros Hw Hall s1 Hopen Hdelta Hrange s2.
  destruct (run_watched es s Hall Hw) as (Hl1 & Hlis). fold s1 in Hl1, Hlis.
  destruct (Hlis Hopen) as [c Hc].
  unfold is_open in Hopen.
  destruct (refs_dialog s1) as [d|] eqn:Hd; [|discriminate Hopen].
  unfold s2, step, traverse.
  replace (Z.eqb delta 0) with false by (symmetry; by apply Z.eqb_neq).
  replace (Z.leb 0 (Z.of_nat (index (history s1)) + delta)) with true
    by (symmetry; apply Z.leb_le; lia).
  replace (Z.ltb (Z.of_nat (index (history s1)) + delta)
             (Z.of_nat (length (entries (history s1))))) with true
    by (symmetry; apply Z.ltb_lt; lia).
  cbn [andb]. unfold dispatchPopState. drawer_simpl. rewrite Hc.
  match goal with |- context [handlePopState ?x] => set (s1' := x) end.
  destruct (handlePopState_open s1' d) as (Hclosed & (mid & Ht) & Hstyle).
  - unfold s1'. drawer_simpl. exact Hd.
  - exact Hopen.
  - unfold s1'. drawer_simpl. exact Hl1.
  - split; [exact Hclosed|]. split; [|exact Hstyle].
    exists mid. apply new_effects_app. rewrite Ht. reflexivity.
Qed.

(** On a phone the drawer is opened from a freshly loaded page and the
    user presses "back". *)
Lemma back_navigation_closes_without_animation_witness :
  let v := view_of true (num_of_pos 100) (num_of_pos 800) in
  is_open (step (UserNavigates (-1)) (run [OpenRequested v] fresh)) = false.
Proof.
  intros v.
  refine (proj1 (back_navigation_closes_without_animation fresh [OpenRequested v] (-1)
                   _ _ _ _ _)).
  - split; [reflexivity | intros H; vm_compute in H; discriminate H].
  - repeat constructor.
  - vm_compute. reflexivity.
  - discriminate.
  - vm_compute. split; [discriminate | reflexivity].
Defined.

(** The history synchronisation is for narrow viewports only: on a wide
    one the open registers no popstate listener, so a back navigation
    changes the history entry and leaves the drawer as it is. *)
Remark wide_viewport_back_navigation_leaves_drawer_open :
  let v := view_of false (num_of_pos 100) (num_of_pos 800) in
  let s1 := dispatchDialogOpen v showing in
  let s2 := traverse (-1) s1 in
  is_open s1 = true ∧
  index (history s1) = 1%nat ∧ index (history s2) = 0%nat ∧
  is_open s2 = true ∧ new_effects s1 s2 = [].
Proof. vm_compute. repeat split. Qed.

(** *** Attaching and detaching the drawer *)

(** X1: on attachment a stale "drawer open" tag of the current history entry
    is cleared in place: afterwards the current entry is not tagged, the
    component listens to the dialog, and the history has the same
    length, the same current index, the same other entries and no
    traversal more than before; nothing is pushed and no back
    navigation is asked for. *)
Theorem connected_clears_stale_tag (s : Drawer) :
  let s' := connectedCallback s in
  tagged s' = false ∧ listening s' = true ∧
  index (history s') = index (history s) ∧
  length (entries (history s')) = length (entries (history s)) ∧
  pendingBack (history s') = pendingBack (history s) ∧
  (∀ i, i ≠ index (history s) →
     entries (history s') !! i = entries (history s) !! i) ∧
  (tagged s = false → history s' = history s) ∧
  pushes (new_effects s s') = 0%nat ∧ backs (new_effects s s') = 0%nat ∧
  refs_dialog s' = refs_dialog s ∧ popstateListener s' = popstateListener s.
Proof.
  unfold connectedCallback. drawer_simpl.
  change (cartDrawerOpen_of (history_state (history s))) with (tagged s).
  destruct (tagged s) eqn:Ht.
  - assert (Hnew : new_effects s
                     (emit (HistoryReplaceState StateNull)
                        (with_history (replaceState StateNull (history s))
                           (with_listening true s)))
                   = [HistoryReplaceState StateNull])
      by (by apply new_effects_app).
    rewrite Hnew. unfold tagged, history_state, replaceState. drawer_simpl.
    repeat split; try reflexivity; try discriminate.
    + destruct (decide (index (history s) < length (entries (history s)))%nat).
      * by rewrite list_lookup_insert_eq.
      * rewrite list_insert_ge by lia.
        rewrite lookup_ge_None_2 by lia. reflexivity.
    + apply length_insert.
    + intros i Hi. by apply list_lookup_insert_ne.
  - assert (Hnew : new_effects s (with_listening true s) = [])
      by (apply new_effects_app; drawer_simpl; by rewrite app_nil_r).
    rewrite Hnew. unfold tagged in *. drawer_simpl.
    repeat split; try reflexivity; try assumption.
Qed.

(** A page reloaded while the drawer was open on a phone: the current
    entry still carries the tag. *)
Lemma connected_clears_stale_tag_witness :
  let s := with_history
             {| entries := [StateNull; StateObj true]; index := 1; pendingBack := 0 |}
             fresh in
  tagged s = true ∧ tagged (connectedCallback s) = false ∧
  entries (history (connectedCallback s)) !! 0%nat = entries (history s) !! 0%nat.
Proof.
  intros s.
  destruct (connected_clears_stale_tag s) as (Ht & _ & _ & _ & _ & Hother & _).
  split; [reflexivity|]. split; [exact Ht|]. apply Hother. discriminate.
Defined.

(** X2: on detachment the component stops reacting: the dialog's open and
    close events reach no handler any more, and, the popstate listener
    being the one added with the controller the component holds (or not
    registered at all), it is removed, so a later navigation changes the
    history entry only. *)
Theorem disconnected_stops_reacting (s : Drawer) (v : View) (delta : Z) :
  popstateListener s = None ∨ popstateListener s = historyAbortController s →
  let s' := disconnectedCallback s in
  popstateListener s' = None ∧
  dispatchDialogOpen v s' = s' ∧ dispatchDialogClose s' = s' ∧
  history s' = history s ∧ refs_dialog s' = refs_dialog s ∧
  refs_dialog (traverse delta s') = refs_dialog s' ∧
  trace (traverse delta s') = trace s'.
Proof.
  intros Hl. unfold disconnectedCallback, abort_history_controller. drawer_simpl.
  assert (H : ∀ s0, popstateListener s0 = None → listening s0 = false →
                dispatchDialogOpen v s0 = s0 ∧ dispatchDialogClose s0 = s0 ∧
                refs_dialog (traverse delta s0) = refs_dialog s0 ∧
                trace (traverse delta s0) = trace s0).
  { intros s0 Hp Hf. unfold dispatchDialogOpen, dispatchDialogClose, traverse.
    rewrite Hf. repeat split.
    - destruct (Z.eqb delta 0); [reflexivity|].
      destruct (_ && _); [|reflexivity].
      unfold dispatchPopState. drawer_simpl. by rewrite Hp.
    - destruct (Z.eqb delta 0); [reflexivity|].
      destruct (_ && _); [|reflexivity].
      unfold dispatchPopState. drawer_simpl. by rewrite Hp. }
  destruct (historyAbortController s) as [c|] eqn:Hc; drawer_simpl.
  - assert (Hp : (if decide (popstateListener s = Some c) then None
                  else popstateListener s) = None).
    { destruct Hl as [Hl | Hl]; rewrite Hl; [reflexivity|].
      by rewrite decide_True. }
    match goal with |- context [dispatchDialogOpen v ?x] => set (s0 := x) end.
    destruct (H s0 Hp eq_refl) as (H1 & H2 & H3 & H4).
    by repeat split.
  - assert (Hp : popstateListener s = None) by (by destruct Hl as [Hl | Hl]).
    match goal with |- context [dispatchDialogOpen v ?x] => set (s0 := x) end.
    destruct (H s0 Hp eq_refl) as (H1 & H2 & H3 & H4).
    by repeat split.
Qed.

(** The drawer was opened on a phone, then the page section is removed. *)
Lemma disconnected_stops_reacting_witness :
  let v := view_of true (num_of_pos 100) (num_of_pos 800) in
  let s := handleHistoryOpen v showing in
  popstateListener s = Some 0%nat ∧
  popstateListener (disconnectedCallback s) = None.
Proof.
  intros v s. split; [vm_compute; reflexivity|].
  refine (proj1 (disconnected_stops_reacting s v 0 _)).
  right. vm_compute. reflexivity.
Defined.

(** *** The back button and the viewport *)

(** X3: on a phone, pressing "back" while the drawer is open consumes
    exactly the entry the open pushed: the dialog is closed, the user is
    on the entry they opened the drawer from, the popstate listener is
    gone, and the close that the navigation triggered asks for no
    further back navigation. *)
Theorem back_button_consumes_pushed_entry (v : View) (s : Drawer) (d : Dialog) :
  isMobileBreakpoint v = true → settled s →
  refs_dialog s = Some d → dlg_open d = true →
  let s2 := traverse (-1) (dispatchDialogOpen v s) in
  is_open s2 = false ∧
  index (history s2) = index (history s) ∧
  pendingBack (history s2) = 0%nat ∧
  popstateListener s2 = None ∧
  pushes (new_effects s s2) = 1%nat ∧ backs (new_effects s s2) = 0%nat.
Proof.
  intros Hm (Hl & Hp & Hb & Hi & Ht) Hd Ho.
  destruct (updateStickyState_frame v s) as (Fh & Fl & Fp & Fc & Fn & _).
  destruct (updateStickyState_dialog v s d Hd) as (d0 & Hd0 & Ho0 & Hst0).
  assert (Htr0 : ∃ l0, trace (updateStickyState v s) = trace s ++ l0
                       ∧ pushes l0 = 0%nat ∧ backs l0 = 0%nat).
  { unfold updateStickyState, setAttribute. rewrite Hd.
    destruct (content v), (summary v); rewrite ?Hd; drawer_simpl;
      eexists; (split; [reflexivity|]); split; reflexivity. }
  destruct Htr0 as (l0 & Htr0 & Hp0 & Hb0).
  set (s0 := updateStickyState v s) in *.
  assert (Hlen : length (take (S (index (history s))) (entries (history s)))
                 = S (index (history s))) by (rewrite length_take; lia).
  unfold dispatchDialogOpen. rewrite Hl. fold s0.
  unfold handleHistoryOpen. rewrite Hm.
  unfold tagged in Ht. rewrite Fh, Ht. drawer_simpl.
  unfold traverse. cbn [Z.eqb]. drawer_simpl.
  rewrite Hlen, length_app, Hlen. drawer_simpl.
  replace (Z.leb 0 (Z.of_nat (S (index (history s))) + -1)) with true
    by (symmetry; apply Z.leb_le; lia).
  replace (Z.ltb (Z.of_nat (S (index (history s))) + -1)
             (Z.of_nat (S (index (history s)) + 1)%nat)) with true
    by (symmetry; apply Z.ltb_lt; lia).
  replace (Z.to_nat (Z.of_nat (S (index (history s))) + -1)) with (index (history s)) by lia.
  drawer_simpl. unfold dispatchPopState. drawer_simpl. rewrite Fp, Hp.
  unfold handlePopState. drawer_simpl. rewrite Hd0, Ho0, Ho.
  unfold style_setProperty. drawer_simpl. rewrite Hd0.
  unfold closeDialog. drawer_simpl. unfold set_open. drawer_simpl.
  rewrite lookup_insert_eq.
  unfold dispatchDialogClose. drawer_simpl. rewrite Fl, Hl.
  unfold handleHistoryClose. drawer_simpl.
  assert (Hcur : cartDrawerOpen_of
                   (history_state
                      {| entries := take (S (index (history s))) (entries (history s))
                                    ++ [StateObj true];
                         index := index (history s);
                         pendingBack := pendingBack (history s) |}) = false).
  { unfold history_state. drawer_simpl.
    rewrite lookup_app_l by (rewrite Hlen; lia).
    rewrite lookup_take_lt by lia. unfold history_state in Ht. exact Ht. }
  rewrite Hcur.
  unfold style_removeProperty. drawer_simpl.
  unfold is_open. drawer_simpl. rewrite Fp, Hp, Hb.
  rewrite decide_True by reflexivity.
  repeat split.
  - unfold new_effects. drawer_simpl. rewrite Htr0.
    rewrite <- !app_assoc, drop_app_length.
    unfold pushes in *. rewrite !List.filter_app, !length_app, Hp0. reflexivity.
  - unfold new_effects. drawer_simpl. rewrite Htr0.
    rewrite <- !app_assoc, drop_app_length.
    unfold backs in *. rewrite !List.filter_app, !length_app, Hb0. reflexivity.
Qed.

(** The drawer is showing on a phone and the user presses "back". *)
Lemma back_button_consumes_pushed_entry_witness :
  let v := view_of true (num_of_pos 100) (num_of_pos 800) in
  let s2 := traverse (-1) (dispatchDialogOpen v showing) in
  index (history s2) = index (history showing) ∧
  pendingBack (history s2) = 0%nat.
Proof.
  intros v s2.
  assert (Hs : settled showing).
  { unfold settled. repeat split. unfold showing. simpl. lia. }
  destruct (back_button_consumes_pushed_entry v showing
              {| dlg_open := true; dlg_attrs := ∅; dlg_style := ∅ |}
              eq_refl Hs eq_refl eq_refl) as (_ & Hi & Hb & _).
  split; [exact Hi | exact Hb].
Defined.

(** X4: on a wide viewport the drawer leaves the history alone: opened from
    an untagged entry and closed again, it has pushed nothing, asked for
    no back navigation, left every entry as it was and added no popstate
    listener. *)
Theorem wide_viewport_leaves_history_alone (v : View) (s : Drawer) :
  isMobileBreakpoint v = false → tagged s = false →
  let s2 := dispatchDialogClose (dispatchDialogOpen v s) in
  history s2 = history s ∧
  pushes (new_effects s s2) = 0%nat ∧ backs (new_effects s s2) = 0%nat ∧
  (popstateListener s = None → popstateListener s2 = None).
Proof.
  intros Hm Ht.
  destruct (updateStickyState_frame v s) as (Fh & Fl & Fp & Fc & Fn & _).
  assert (Htr0 : ∃ l0, trace (updateStickyState v s) = trace s ++ l0
                       ∧ pushes l0 = 0%nat ∧ backs l0 = 0%nat).
  { unfold updateStickyState, setAttribute.
    destruct (refs_dialog s) as [d|] eqn:Hd.
    - destruct (content v), (summary v); rewrite ?Hd; drawer_simpl;
        eexists; (split; [reflexivity|]); split; reflexivity.
    - exists []. rewrite app_nil_r. by repeat split. }
  destruct Htr0 as (l0 & Htr0 & Hp0 & Hb0).
  unfold dispatchDialogOpen, dispatchDialogClose.
  destruct (listening s) eqn:Hl.
  - unfold handleHistoryOpen. rewrite Hm. drawer_simpl. rewrite Fl.
    set (s0 := updateStickyState v s) in *.
    unfold handleHistoryClose. rewrite abort_history_controller_frame, Fh.
    unfold tagged in Ht. rewrite Ht.
    unfold abort_history_controller. rewrite Fc.
    destruct (historyAbortController s) as [c|] eqn:Hc; drawer_simpl.
    + rewrite Fh. split; [reflexivity|].
      unfold new_effects. drawer_simpl. rewrite Htr0.
      rewrite <- !app_assoc, drop_app_length.
      unfold pushes, backs in *. rewrite !List.filter_app, !length_app, Hp0, Hb0.
      repeat split. rewrite Fp. intros ->. reflexivity.
    + rewrite Fh. split; [reflexivity|].
      unfold new_effects. rewrite Htr0, drop_app_length.
      repeat split; try assumption. by rewrite Fp.
  - rewrite Hl. unfold new_effects. rewrite drop_all. by repeat split.
Qed.

Lemma wide_viewport_leaves_history_alone_witness :
  let v := view_of false (num_of_pos 100) (num_of_pos 800) in
  history (dispatchDialogClose (dispatchDialogOpen v fresh)) = history fresh.
Proof.
  intros v.
  exact (proj1 (wide_viewport_leaves_history_alone v fresh eq_refl eq_refl)).
Defined.

(** X5: the sticky-summary recompute writes one attribute and nothing else:
    the dialog's style, its open state and its other attributes stay,
    as do the history and the listeners; without a dialog nothing
    happens at all. *)
Theorem sticky_recompute_writes_one_attribute (v : View) (s : Drawer) :
  let s' := updateStickyState v s in
  history s' = history s ∧ popstateListener s' = popstateListener s ∧
  historyAbortController s' = historyAbortController s ∧
  listening s' = listening s ∧
  (refs_dialog s = None → s' = s) ∧
  (∀ d, refs_dialog s = Some d →
     ∃ d', refs_dialog s' = Some d' ∧
           dlg_open d' = dlg_open d ∧ dlg_style d' = dlg_style d ∧
           ∀ name, name ≠ "cart-summary-sticky" →
                   dlg_attrs d' !! name = dlg_attrs d !! name).
Proof.
  destruct (updateStickyState_frame v s) as (Fh & Fl & Fp & Fc & _).
  cbv zeta. repeat split; try assumption.
  - intros Hd. unfold updateStickyState. by rewrite Hd.
  - intros d Hd. unfold updateStickyState, setAttribute. rewrite Hd.
    destruct (content v), (summary v); rewrite ?Hd; drawer_simpl;
      eexists; (split; [reflexivity|]); drawer_simpl;
      repeat split; intros name Hn; by rewrite lookup_insert_ne.
Qed.

(** A fresh drawer with a cart that has items. *)
Lemma sticky_recompute_writes_one_attribute_witness :
  let v := view_of true (num_of_pos 100) (num_of_pos 800) in
  ∃ d', refs_dialog (updateStickyState v fresh) = Some d' ∧ dlg_style d' = ∅.
Proof.
  intros v.
  destruct (sticky_recompute_writes_one_attribute v fresh) as (_ & _ & _ & _ & _ & H).
  destruct (H closed_dialog eq_refl) as (d' & Hd & _ & Hs & _).
  exists d'. split; [exact Hd | exact Hs].
Defined.

End CartDrawerFacts.

(** * Properties of the header menu *)

Section HeaderMenuFacts.
Import HeaderMenu.

(** Reduction of the state updates, leaving maps and sets alone. *)
Ltac menu_simpl :=
  cbn [flags styles watcher trace perform performs fold_left
       flags_after styles_after watcher_after with_watcher
       with_frames with_timers with_now
       activeItem hostAriaExpanded ariaExpanded overflowExpanded dataActive
       inlineDisplay styleProps hostStyle
       submenuMutationObserver observing nextObserver frames timers now
       part_of].

(** *** The menu item of an event target *)

(** [findMenuItem] returns what the script's recursion returns: given
    what [querySelector('[slot="overflow"]')] guarantees, more fuel than
    one recursive call changes nothing. *)
Lemma findMenuItem_enough_fuel (d : Dom) (fuel : nat) (element : option elem) :
  selectors_sound d →
  findMenuItem_rec (S fuel) d element = findMenuItem d element.
Proof.
  intros Hsound. unfold findMenuItem.
  destruct element as [el|]; [|reflexivity]. simpl.
  destruct (String.eqb (slot d el) "more"); [|reflexivity].
  destruct (parentElement d el ≫= querySelector_slot_overflow d) as [o|] eqn:Ho;
    [|by destruct fuel].
  assert (Hslot : slot d o = "overflow").
  { destruct (parentElement d el) as [p|]; [|discriminate]. by apply (Hsound p). }
  destruct fuel; simpl; rewrite Hslot; reflexivity.
Qed.

(** *** Writes and the parts of the state *)

Lemma performs_app (l1 l2 : list effect) (s : Menu) :
  performs (l1 ++ l2) s = performs l2 (performs l1 s).
Proof. unfold performs. apply fold_left_app. Qed.

Lemma trace_performs (l : list effect) (s : Menu) :
  trace (performs l s) = trace s ++ l.
Proof.
  revert s. induction l as [|e l IH]; intros s; menu_simpl.
  - by rewrite app_nil_r.
  - change (trace (performs l (perform e s)) = trace s ++ e :: l).
    rewrite IH. menu_simpl. by rewrite <- app_assoc.
Qed.

Lemma flags_after_other (e : effect) (f : Flags) :
  part_of e ≠ OfFlags → flags_after e f = f.
Proof. destruct e; menu_simpl; congruence. Qed.

Lemma styles_after_other (e : effect) (st : Styles) :
  part_of e ≠ OfStyles → styles_after e st = st.
Proof. destruct e; menu_simpl; congruence. Qed.

Lemma watcher_after_other (e : effect) (w : Watcher) :
  part_of e ≠ OfWatcher → watcher_after e w = w.
Proof. destruct e; menu_simpl; congruence. Qed.

Lemma emits_refl (K : effect → Prop) (s : Menu) : emits K s s.
Proof. exists []. split; [reflexivity | constructor]. Qed.

Lemma emits_perform (K : effect → Prop) (e : effect) (s : Menu) :
  K e → emits K s (perform e s).
Proof. intros He. exists [e]. split; [reflexivity | by constructor]. Qed.

Lemma emits_trans (K : effect → Prop) (s1 s2 s3 : Menu) :
  emits K s1 s2 → emits K s2 s3 → emits K s1 s3.
Proof.
  intros (l1 & -> & H1) (l2 & -> & H2). exists (l1 ++ l2).
  split; [by rewrite performs_app | by apply Forall_app].
Qed.

Lemma emits_weaken (K K' : effect → Prop) (s s' : Menu) :
  (∀ e, K e → K' e) → emits K s s' → emits K' s s'.
Proof.
  intros HK (l & -> & Hl). exists l. split; [reflexivity|].
  eapply Forall_impl; eauto.
Qed.

Lemma emits_trace (K : effect → Prop) (s s' : Menu) :
  emits K s s' → ∃ l, trace s' = trace s ++ l ∧ Forall K l.
Proof. intros (l & -> & Hl). exists l. by rewrite trace_performs. Qed.

Lemma emits_flags (K : effect → Prop) (s s' : Menu) :
  (∀ e, K e → part_of e ≠ OfFlags) → emits K s s' → flags s' = flags s.
Proof.
  intros HK (l & -> & Hl). revert s.
  induction Hl as [|e l He Hl IH]; intros s; [reflexivity|].
  change (flags (performs l (perform e s)) = flags s).
  rewrite IH. menu_simpl. apply flags_after_other; auto.
Qed.

Lemma emits_styles (K : effect → Prop) (s s' : Menu) :
  (∀ e, K e → part_of e ≠ OfStyles) → emits K s s' → styles s' = styles s.
Proof.
  intros HK (l & -> & Hl). revert s.
  induction Hl as [|e l He Hl IH]; intros s; [reflexivity|].
  change (styles (performs l (perform e s)) = styles s).
  rewrite IH. menu_simpl. apply styles_after_other; auto.
Qed.

Lemma emits_watcher (K : effect → Prop) (s s' : Menu) :
  (∀ e, K e → part_of e ≠ OfWatcher) → emits K s s' → watcher s' = watcher s.
Proof.
  intros HK (l & -> & Hl). revert s.
  induction Hl as [|e l He Hl IH]; intros s; [reflexivity|].
  change (watcher (performs l (perform e s)) = watcher s).
  rewrite IH. menu_simpl. apply watcher_after_other; auto.
Qed.

Lemma new_effects_trace (s s' : Menu) (l : list effect) :
  trace s' = trace s ++ l → new_effects s s' = l.
Proof. intros H. unfold new_effects. rewrite H. apply drop_app_length. Qed.

(** *** What each method writes *)

(** Peels the last write off a chain of writes. *)
Ltac last_write := eapply emits_trans; [|apply emits_perform].

Lemma cleanupMutationObserver_emits (s : Menu) :
  emits (writes OfWatcher) s (cleanupMutationObserver s).
Proof.
  unfold cleanupMutationObserver.
  last_write; [|reflexivity].
  destruct (submenuMutationObserver (watcher s)).
  - apply emits_perform; reflexivity.
  - apply emits_refl.
Qed.

Lemma mapSubmenus_emits (d : Dom) (links : list elem) (cb : elem → effect) (s : Menu) :
  (∀ sm, part_of (cb sm) = OfStyles) →
  emits (writes OfStyles) s (mapSubmenus d links cb s).
Proof.
  intros Hcb. unfold mapSubmenus. revert s.
  induction links as [|link links IH]; intros s; simpl.
  - apply emits_refl.
  - eapply emits_trans; [|apply IH].
    destruct (querySelector_submenu d link).
    + apply emits_perform, Hcb.
    + apply emits_refl.
Qed.

Lemma getOverflowListLinksHeight_emits (d : Dom) (s : Menu) :
  emits (writes OfStyles) s (getOverflowListLinksHeight d s).2.
Proof.
  unfold getOverflowListLinksHeight.
  destruct (overflowMenu d ≫= assignedElements d); simpl.
  - eapply emits_trans; [|apply mapSubmenus_emits; reflexivity].
    apply mapSubmenus_emits; reflexivity.
  - apply emits_refl.
Qed.

Lemma setFullOpenHeaderHeight_emits (d : Dom) (h : Z) (s : Menu) :
  emits (writes OfStyles) s (setFullOpenHeaderHeight d h s).
Proof.
  unfold setFullOpenHeaderHeight. destruct (headerComponent d).
  - apply emits_perform. reflexivity.
  - apply emits_refl.
Qed.

Lemma measure_height_emits (d : Dom) (tgt item : elem) (s : Menu) :
  emits (writes OfStyles) s (measure_height d tgt item s).2.
Proof.
  unfold measure_height.
  destruct (negb (String.eqb (slot d tgt) EmptyString)).
  - pose proof (getOverflowListLinksHeight_emits d s) as H.
    destruct (getOverflowListLinksHeight d s) as [h s1]. simpl in H.
    destruct (bool_decide (is_Some (findSubmenu d (Some item)))); exact H.
  - apply emits_refl.
Qed.

Lemma publish_emits (d : Dom) (header : elem) (h : Z) (s : Menu) :
  emits (writes OfStyles) s (publish d header h s).
Proof.
  unfold publish.
  last_write; [|reflexivity].
  eapply emits_trans; [|apply setFullOpenHeaderHeight_emits].
  apply emits_perform; reflexivity.
Qed.

Lemma watch_submenu_emits (submenu : option elem) (s : Menu) :
  emits (λ e, part_of e = OfWatcher ∨ ∃ sm, e = SetDataActive sm) s
    (watch_submenu submenu s).
Proof.
  unfold watch_submenu. destruct submenu as [sm|]; [|apply emits_refl].
  last_write; [|by left].
  last_write; [|by left].
  eapply emits_trans;
    [|eapply emits_weaken; [|apply cleanupMutationObserver_emits]; by left].
  apply emits_perform; eauto.
Qed.

Lemma switch_active_emits (d : Dom) (tgt item : elem) (s : Menu) :
  emits (writes OfFlags) s (switch_active d tgt item s).
Proof.
  unfold switch_active. menu_simpl.
  last_write; [|reflexivity].
  last_write; [|reflexivity].
  last_write; [|reflexivity].
  destruct (activeItem (flags s)).
  - last_write; [|reflexivity]. apply emits_perform; reflexivity.
  - apply emits_perform; reflexivity.
Qed.

(** After the hover event, nothing in [activate] dispatches again. *)
Lemma activate_item_emits (d : Dom) (tgt header item : elem) (s : Menu) :
  emits (λ e, part_of e ≠ Signal) s (activate_item d tgt header item s).
Proof.
  unfold activate_item.
  pose proof (measure_height_emits d tgt item
                (watch_submenu (submenu_for d tgt item) (switch_active d tgt item s))) as Hm.
  destruct (measure_height d tgt item _) as [h s3]. simpl in Hm.
  eapply emits_trans;
    [|eapply emits_weaken; [|apply publish_emits]].
  2:{ intros e He. unfold writes in He. rewrite He. discriminate. }
  eapply emits_trans;
    [|eapply emits_weaken; [|exact Hm]].
  2:{ intros e He. unfold writes in He. rewrite He. discriminate. }
  eapply emits_trans;
    [|eapply emits_weaken; [|apply watch_submenu_emits]].
  2:{ intros e [He | [sm ->]]; [rewrite He|]; discriminate. }
  eapply emits_weaken; [|apply switch_active_emits].
  intros e He. unfold writes in He. rewrite He. discriminate.
Qed.

(** *** Activation *)

Lemma activate_blocked (d : Dom) (event : Event) (s : Menu) :
  target event = None ∨ headerComponent d = None ∨
  findMenuItem d (target event) = None ∨
  findMenuItem d (target event) = activeItem (flags s) →
  activate d event s = perform DispatchMegaMenuHover s.
Proof.
  unfold activate. menu_simpl.
  destruct (target event) as [tgt|]; [|reflexivity].
  destruct (headerComponent d) as [header|]; [|reflexivity].
  destruct (findMenuItem d (Some tgt)) as [item|]; [|reflexivity].
  intros [H | [H | [H | H]]]; try discriminate.
  rewrite decide_True by exact H. reflexivity.
Qed.

Lemma activate_passes (d : Dom) (event : Event) (s : Menu) (tgt header item : elem) :
  target event = Some tgt → headerComponent d = Some header →
  findMenuItem d (Some tgt) = Some item → activeItem (flags s) ≠ Some item →
  activate d event s = activate_item d tgt header item (perform DispatchMegaMenuHover s).
Proof.
  intros Ht Hh Hi Hne. unfold activate. rewrite Ht, Hh, Hi. menu_simpl.
  rewrite decide_False by congruence. reflexivity.
Qed.

(** [activate] either stops after the hover event or goes through. *)
Lemma activate_cases (d : Dom) (event : Event) (s : Menu) :
  activate d event s = perform DispatchMegaMenuHover s ∨
  ∃ tgt header item,
    target event = Some tgt ∧ headerComponent d = Some header ∧
    findMenuItem d (Some tgt) = Some item ∧ activeItem (flags s) ≠ Some item ∧
    activate d event s = activate_item d tgt header item (perform DispatchMegaMenuHover s).
Proof.
  destruct (target event) as [tgt|] eqn:Ht;
    [|left; apply activate_blocked; auto].
  destruct (headerComponent d) as [header|] eqn:Hh;
    [|left; apply activate_blocked; auto].
  destruct (findMenuItem d (Some tgt)) as [item|] eqn:Hi;
    [|left; apply activate_blocked; rewrite Ht; auto].
  destruct (decide (activeItem (flags s) = Some item)) as [Ha|Ha].
  - left. apply activate_blocked. rewrite Ht, Hi. auto.
  - right. exists tgt, header, item. repeat split; try assumption.
    by apply activate_passes.
Qed.

Lemma count_none (e : effect) (l : list effect) :
  Forall (λ x, x ≠ e) l → count e l = 0%nat.
Proof.
  unfold count. induction 1 as [|x l Hx Hl IH]; [reflexivity|].
  rewrite filter_cons_False by exact Hx. exact IH.
Qed.

(** C10: whatever the input event and the document, [activate] first
    dispatches the menu-hover event, and dispatches it exactly once;
    where a guard then stops the activation (the target is not an
    element, there is no header component, the target has no menu item,
    or its item is the active one already), the hover event is all that
    happened. *)
Theorem activate_dispatches_hover_first_and_once (d : Dom) (event : Event) (s : Menu) :
  let s' := activate d event s in
  (∃ rest, new_effects s s' = DispatchMegaMenuHover :: rest) ∧
  count DispatchMegaMenuHover (new_effects s s') = 1%nat ∧
  (target event = None ∨ headerComponent d = None ∨
   findMenuItem d (target event) = None ∨
   findMenuItem d (target event) = activeItem (flags s) →
     new_effects s s' = [DispatchMegaMenuHover] ∧
     flags s' = flags s ∧ styles s' = styles s ∧ watcher s' = watcher s).
Proof.
  intros s'. subst s'.
  assert (Hall : ∃ rest, new_effects s (activate d event s) = DispatchMegaMenuHover :: rest
                         ∧ Forall (λ x, x ≠ DispatchMegaMenuHover) rest).
  { destruct (activate_cases d event s) as [-> | (tgt & header & item & _ & _ & _ & _ & ->)].
    - exists []. split; [|constructor]. by apply new_effects_trace.
    - destruct (emits_trace _ _ _
                  (activate_item_emits d tgt header item (perform DispatchMegaMenuHover s)))
        as (rest & Ht & Hrest).
      exists rest. split.
      + apply new_effects_trace. rewrite Ht. menu_simpl. by rewrite <- app_assoc.
      + eapply Forall_impl; [exact Hrest|]. intros e He ->. by apply He. }
  destruct Hall as (rest & Hnew & Hrest).
  split; [eauto|]. split.
  - rewrite Hnew. unfold count. rewrite filter_cons_True by reflexivity.
    simpl. f_equal. by apply count_none.
  - intros Hblocked. rewrite (activate_blocked d event s Hblocked).
    split; [by apply new_effects_trace|]. by menu_simpl.
Qed.

(** The pointer enters entry A while A is active: only the hover event. *)
Lemma activate_dispatches_hover_first_and_once_witness :
  let sA := activate calm (pointerenter 10) idle in
  new_effects sA (activate calm (pointerenter 10) sA) = [DispatchMegaMenuHover].
Proof.
  intros sA.
  destruct (activate_dispatches_hover_first_and_once calm (pointerenter 10) sA)
    as (_ & _ & H).
  apply H. right. right. right. vm_compute. reflexivity.
Defined.

(** C7: activating the item that is active already changes no flag, no
    style and nothing about the watcher: no watcher is created, and the
    hover event is the only thing in the trace. *)
Theorem activate_active_item_is_noop
    (d : Dom) (event : Event) (s : Menu) (tgt item : elem) :
  target event = Some tgt → findMenuItem d (Some tgt) = Some item →
  activeItem (flags s) = Some item →
  let s' := activate d event s in
  flags s' = flags s ∧ styles s' = styles s ∧ watcher s' = watcher s ∧
  new_effects s s' = [DispatchMegaMenuHover].
Proof.
  intros Ht Hi Ha s'. subst s'.
  rewrite (activate_blocked d event s) by (rewrite Ht, Hi; auto).
  split; [reflexivity|]. split; [reflexivity|]. split; [reflexivity|].
  by apply new_effects_trace.
Qed.

Lemma activate_active_item_is_noop_witness :
  let sA := activate calm (pointerenter 10) idle in
  watcher (activate calm (pointerenter 10) sA) = watcher sA.
Proof.
  intros sA.
  refine (proj1 (proj2 (proj2 (activate_active_item_is_noop calm (pointerenter 10) sA
                                 10%positive 11%positive eq_refl _ _)))).
  - vm_compute. reflexivity.
  - vm_compute. reflexivity.
Defined.

(** *** One active item *)

Lemma emits_selection (K : effect → Prop) (s s' : Menu) :
  (∀ e, K e → keeps_selection e) → emits K s s' →
  activeItem (flags s') = activeItem (flags s) ∧
  ariaExpanded (flags s') = ariaExpanded (flags s) ∧
  hostAriaExpanded (flags s') = hostAriaExpanded (flags s).
Proof.
  intros HK (l & -> & Hl). revert s.
  induction Hl as [|e l He Hl IH]; intros s; [by repeat split|].
  change (performs (e :: l) s) with (performs l (perform e s)).
  destruct (IH (perform e s)) as (-> & -> & ->). menu_simpl.
  pose proof (HK e He) as Hk. clear He IH.
  destruct e; simpl in Hk; try contradiction; menu_simpl; by repeat split.
Qed.

Lemma opens_submenu_keeps_selection (e : effect) :
  opens_submenu e → keeps_selection e.
Proof. destruct e; intros [H | [H | [? H]]]; try discriminate H; exact I. Qed.

Lemma opens_submenu_no_signal (e : effect) :
  opens_submenu e → part_of e ≠ Signal.
Proof. intros [H | [H | [sm ->]]]; [rewrite H | rewrite H |]; discriminate. Qed.

Lemma activate_item_after_switch (d : Dom) (tgt header item : elem) (s : Menu) :
  emits opens_submenu (switch_active d tgt item s) (activate_item d tgt header item s).
Proof.
  unfold activate_item.
  pose proof (measure_height_emits d tgt item
                (watch_submenu (submenu_for d tgt item) (switch_active d tgt item s))) as Hm.
  destruct (measure_height d tgt item _) as [h s3]. simpl in Hm.
  eapply emits_trans; [|eapply emits_weaken; [|apply publish_emits]].
  2:{ intros e He. right. by left. }
  eapply emits_trans; [|eapply emits_weaken; [|exact Hm]].
  2:{ intros e He. right. by left. }
  eapply emits_weaken; [|apply watch_submenu_emits].
  intros e [He | He]; [by left | by right; right].
Qed.

Lemma switch_active_trace (d : Dom) (tgt item : elem) (s : Menu) :
  trace (switch_active d tgt item s) =
    trace s ++
    SetOverflowExpanded (bool_toString (negb (String.eqb (slot d tgt) EmptyString))) ::
    match activeItem (flags s) with
    | Some prev => [SetAriaExpanded prev "false"]
    | None => []
    end ++
    [SetActiveItem (Some item); SetHostAriaExpanded "true"; SetAriaExpanded item "true"].
Proof.
  unfold switch_active. menu_simpl.
  destruct (activeItem (flags s)); menu_simpl; rewrite <- !app_assoc; reflexivity.
Qed.

Lemma switch_active_selection (d : Dom) (tgt item : elem) (s : Menu) :
  let s' := switch_active d tgt item s in
  activeItem (flags s') = Some item ∧
  hostAriaExpanded (flags s') = Some "true" ∧
  ariaExpanded (flags s') =
    <[item := "true"]>
      match activeItem (flags s) with
      | Some prev => <[prev := "false"]> (ariaExpanded (flags s))
      | None => ariaExpanded (flags s)
      end.
Proof.
  unfold switch_active. menu_simpl.
  destruct (activeItem (flags s)); menu_simpl; by repeat split.
Qed.

(** The flags after an activation that went through. *)
Lemma activate_item_selection (d : Dom) (tgt header item : elem) (s : Menu) :
  let s' := activate_item d tgt header item s in
  activeItem (flags s') = Some item ∧
  hostAriaExpanded (flags s') = Some "true" ∧
  ariaExpanded (flags s') =
    <[item := "true"]>
      match activeItem (flags s) with
      | Some prev => <[prev := "false"]> (ariaExpanded (flags s))
      | None => ariaExpanded (flags s)
      end.
Proof.
  destruct (emits_selection _ _ _ opens_submenu_keeps_selection
              (activate_item_after_switch d tgt header item s)) as (Ha & He & Hh).
  destruct (switch_active_selection d tgt item s) as (Ha' & Hh' & He').
  cbv zeta. rewrite Ha, He, Hh. by repeat split.
Qed.

Lemma deactivate_item_cases (d : Dom) (item : option elem) (s : Menu) :
  let s' := deactivate_item d item s in
  s' = s ∨
  ∃ it, item = Some it ∧ activeItem (flags s) = Some it ∧
        overflowListHovered d = false ∧
        from_option (hovered d) false (overflowMenu d) = false ∧
        activeItem (flags s') = None ∧
        hostAriaExpanded (flags s') = Some "false" ∧
        ariaExpanded (flags s') = <[it := "false"]> (ariaExpanded (flags s)) ∧
        watcher s' = watcher s.
Proof.
  unfold deactivate_item. destruct item as [it|]; [|by left].
  destruct (decide (Some it = activeItem (flags s))) as [Ha|]; [|by left].
  destruct (overflowListHovered d) eqn:Hl; [by left|].
  destruct (from_option (hovered d) false (overflowMenu d)) eqn:Hh;
    [rewrite orb_true_r; by left|].
  right. exists it. simpl orb. cbv iota.
  set (s1 := match headerComponent d with
             | Some header => perform (SetStyleProperty header "--submenu-height" "0px") s
             | None => s
             end).
  assert (H1 : emits (writes OfStyles) s s1).
  { unfold s1. destruct (headerComponent d);
      [apply emits_perform; reflexivity | apply emits_refl]. }
  pose proof (emits_trans _ _ _ _ H1 (setFullOpenHeaderHeight_emits d 0 s1)) as H2.
  set (s2 := setFullOpenHeaderHeight d 0 s1) in *.
  assert (Hf : flags s2 = flags s).
  { eapply emits_flags; [|exact H2]. intros e ->. discriminate. }
  assert (Hw : watcher s2 = watcher s).
  { eapply emits_watcher; [|exact H2]. intros e ->. discriminate. }
  destruct (findSubmenu d (Some it)); menu_simpl; rewrite Hf, Hw; by repeat split.
Qed.

Lemma frameCallback_emits (d : Dom) (cb : frame_cb) (s : Menu) :
  emits (λ e, part_of e = OfWatcher ∨ part_of e = OfStyles) s (frameCallback d cb s).
Proof.
  unfold frameCallback. destruct cb as [sm|sm].
  - apply emits_perform. by left.
  - destruct (Z.ltb 0 (height d s sm)); [|apply emits_refl].
    eapply emits_trans;
      [|eapply emits_weaken; [|apply cleanupMutationObserver_emits]; by left].
    destruct (headerComponent d);
      [apply emits_perform; by right | apply emits_refl].
Qed.

Lemma frames_emit (d : Dom) (cbs : list frame_cb) (s : Menu) :
  emits (λ e, part_of e = OfWatcher ∨ part_of e = OfStyles) s
    (fold_left (λ s cb, frameCallback d cb s) cbs s).
Proof.
  revert s. induction cbs as [|cb cbs IH]; intros s; simpl.
  - apply emits_refl.
  - eapply emits_trans; [apply frameCallback_emits | apply IH].
Qed.

(** Every turn of the event loop keeps "expanded means active". *)
Lemma step_expanded_is_active (i : input) (s s' : Menu) :
  step i s = Some s' → expanded_is_active s → expanded_is_active s'.
Proof.
  intros Hstep Hinv.
  assert (Hsame : flags s' = flags s → expanded_is_active s').
  { intros Hf j. unfold expanded_is_active in Hinv. rewrite Hf. apply Hinv. }
  assert (Hdeact : ∀ d item, expanded_is_active (deactivate_item d item s)).
  { intros d item.
    destruct (deactivate_item_cases d item s)
      as [-> | (it & _ & Ha & _ & _ & Ha' & _ & He' & _)]; [exact Hinv|].
    intros j. rewrite He', Ha'. intros Hj.
    destruct (decide (it = j)) as [->|Hne].
    - rewrite lookup_insert_eq in Hj. discriminate.
    - rewrite lookup_insert_ne in Hj by exact Hne.
      specialize (Hinv j Hj). congruence. }
  destruct i as [d ev|d ev|d| |o|d| |dt]; simpl in Hstep.
  - injection Hstep as <-.
    destruct (activate_cases d ev s)
      as [Hb | (tgt & header & item & _ & _ & _ & Hne & ->)];
      [apply Hsame; by rewrite Hb|].
    destruct (activate_item_selection d tgt header item (perform DispatchMegaMenuHover s))
      as (Ha & _ & He).
    intros j. rewrite Ha, He. menu_simpl. intros Hj.
    destruct (decide (item = j)) as [->|Hij]; [reflexivity|].
    rewrite lookup_insert_ne in Hj by exact Hij. exfalso.
    destruct (activeItem (flags s)) as [prev|] eqn:Hprev.
    + destruct (decide (prev = j)) as [->|Hpj].
      * rewrite lookup_insert_eq in Hj. discriminate.
      * rewrite lookup_insert_ne in Hj by exact Hpj.
        specialize (Hinv j Hj). congruence.
    + specialize (Hinv j Hj). congruence.
  - injection Hstep as <-. unfold deactivate.
    destruct (target ev); [|exact Hinv].
    destruct (_ || _); [exact Hinv|]. apply Hdeact.
  - injection Hstep as <-. apply Hdeact.
  - injection Hstep as <-. apply Hsame.
    eapply emits_flags; [|apply cleanupMutationObserver_emits].
    intros e ->. discriminate.
  - destruct (observing (watcher s) !! o) as [[sm t0]|]; [|discriminate].
    injection Hstep as <-. by apply Hsame.
  - injection Hstep as <-. apply Hsame.
    transitivity (flags (with_frames [] s)); [|reflexivity].
    eapply emits_flags; [|apply frames_emit].
    intros e [-> | ->]; discriminate.
  - destruct (timers (watcher s)) as [|due rest]; [discriminate|].
    destruct (due <=? now (watcher s))%nat; [|discriminate].
    injection Hstep as <-. apply Hsame.
    transitivity (flags (with_timers rest s)); [|reflexivity].
    eapply emits_flags; [|apply cleanupMutationObserver_emits].
    intros e ->. discriminate.
  - injection Hstep as <-. by apply Hsame.
Qed.

Lemma steps_expanded_is_active (ins : list input) (s s' : Menu) :
  steps ins s s' → expanded_is_active s → expanded_is_active s'.
Proof.
  induction 1 as [|i ins s s1 s2 Hstep _ IH]; [auto|].
  intros Hinv. apply IH. by eapply step_expanded_is_active.
Qed.

Lemma initial_expanded_is_active (s : Menu) : initial s → expanded_is_active s.
Proof. intros (_ & Hnone & _) i Hi. by destruct (Hnone i). Qed.

(** C1: in every state the component can reach, two items with the
    expanded flag "true" are the same item; and from any state,
    activating item A and then a different item B leaves A's flag
    "false" and B's flag "true". *)
Theorem at_most_one_item_expanded
    (s : Menu) (dA dB : Dom) (evA evB : Event) (tA tB hA hB A B : elem) :
  reachable s →
  target evA = Some tA → headerComponent dA = Some hA →
  findMenuItem dA (Some tA) = Some A →
  target evB = Some tB → headerComponent dB = Some hB →
  findMenuItem dB (Some tB) = Some B →
  A ≠ B →
  (∀ i j, expanded s i → expanded s j → i = j) ∧
  let s' := activate dB evB (activate dA evA s) in
  ariaExpanded (flags s') !! A = Some "false" ∧
  ariaExpanded (flags s') !! B = Some "true" ∧
  (∀ i j, expanded s' i → expanded s' j → i = j).
Proof.
  intros (s0 & ins & Hinit & Hsteps) HtA HhA HiA HtB HhB HiB Hne.
  assert (Hinv : expanded_is_active s).
  { eapply steps_expanded_is_active; [exact Hsteps|].
    by apply initial_expanded_is_active. }
  assert (Hone : ∀ s1, expanded_is_active s1 →
                       ∀ i j, expanded s1 i → expanded s1 j → i = j).
  { intros s1 H1 i j Hi Hj.
    pose proof (H1 i Hi) as Hai. pose proof (H1 j Hj) as Haj. congruence. }
  split; [by apply Hone|].
  set (s1 := activate dA evA s).
  assert (Hinv1 : expanded_is_active s1).
  { eapply (step_expanded_is_active (Activate dA evA)); [reflexivity | exact Hinv]. }
  assert (Hinv2 : expanded_is_active (activate dB evB s1)).
  { eapply (step_expanded_is_active (Activate dB evB)); [reflexivity | exact Hinv1]. }
  assert (HA : activeItem (flags s1) = Some A).
  { unfold s1.
    destruct (decide (activeItem (flags s) = Some A)) as [Ha|Ha].
    - rewrite (activate_blocked dA evA s) by (rewrite HtA, HiA; auto). exact Ha.
    - rewrite (activate_passes dA evA s tA hA A HtA HhA HiA Ha).
      apply activate_item_selection. }
  cbv zeta.
  rewrite (activate_passes dB evB s1 tB hB B HtB HhB HiB) by congruence.
  destruct (activate_item_selection dB tB hB B (perform DispatchMegaMenuHover s1))
    as (_ & _ & He).
  rewrite <- (activate_passes dB evB s1 tB hB B HtB HhB HiB) in * by congruence.
  split; [|split; [|by apply Hone]].
  - rewrite He. menu_simpl. rewrite HA.
    rewrite lookup_insert_ne by congruence. apply lookup_insert_eq.
  - rewrite He. apply lookup_insert_eq.
Qed.

(** Hovering entry A, then entry B, of the sample menu. *)
Lemma at_most_one_item_expanded_witness :
  let s' := activate calm (pointerenter 20) (activate calm (pointerenter 10) idle) in
  ariaExpanded (flags s') !! 11%positive = Some "false" ∧
  ariaExpanded (flags s') !! 21%positive = Some "true".
Proof.
  assert (Hreach : reachable idle).
  { exists idle, []. split; [|constructor]. by repeat split. }
  destruct (at_most_one_item_expanded idle calm calm (pointerenter 10) (pointerenter 20)
              10%positive 20%positive 1%positive 1%positive 11%positive 21%positive
              Hreach eq_refl eq_refl eq_refl eq_refl eq_refl eq_refl)
    as (_ & HA & HB & _); [discriminate|].
  split; [exact HA | exact HB].
Defined.

(** *** Switching from one item to another *)

(** X19: on the transition from Active(x) to Active(y), y different
    from x, the writes of [activate] start with the hover event and the
    overflow flag, then x's expanded flag is cleared, and only then is y
    made the active item and are the expanded flags of the menu and of
    y set; in the resulting state x's flag is "false", y is active, and
    the menu's and y's flags are "true". *)
Theorem switch_clears_previous_flag_first
    (d : Dom) (event : Event) (s : Menu) (tgt header x y : elem) :
  target event = Some tgt → headerComponent d = Some header →
  findMenuItem d (Some tgt) = Some y →
  activeItem (flags s) = Some x → y ≠ x →
  let s' := activate d event s in
  (∃ rest, new_effects s s' =
     DispatchMegaMenuHover ::
     SetOverflowExpanded (bool_toString (negb (String.eqb (slot d tgt) EmptyString))) ::
     SetAriaExpanded x "false" ::
     SetActiveItem (Some y) ::
     SetHostAriaExpanded "true" ::
     SetAriaExpanded y "true" :: rest) ∧
  ariaExpanded (flags s') !! x = Some "false" ∧
  activeItem (flags s') = Some y ∧
  hostAriaExpanded (flags s') = Some "true" ∧
  ariaExpanded (flags s') !! y = Some "true".
Proof.
  intros Ht Hh Hi Hx Hne s'. subst s'.
  rewrite (activate_passes d event s tgt header y Ht Hh Hi) by congruence.
  set (s0 := perform DispatchMegaMenuHover s).
  destruct (activate_item_selection d tgt header y s0) as (Ha & Hhost & He).
  split.
  - destruct (emits_trace _ _ _ (activate_item_after_switch d tgt header y s0))
      as (rest & Htr & _).
    exists rest. apply new_effects_trace. rewrite Htr, switch_active_trace.
    unfold s0. menu_simpl. rewrite Hx. rewrite <- !app_assoc. reflexivity.
  - rewrite Ha, Hhost, He. unfold s0. menu_simpl. rewrite Hx.
    split; [|split; [reflexivity|split; [reflexivity|]]].
    + rewrite lookup_insert_ne by exact Hne. apply lookup_insert_eq.
    + apply lookup_insert_eq.
Qed.

(** Entry A is active and the pointer enters entry B. *)
Lemma switch_clears_previous_flag_first_witness :
  let sA := activate calm (pointerenter 10) idle in
  let sB := activate calm (pointerenter 20) sA in
  ariaExpanded (flags sB) !! 11%positive = Some "false" ∧
  activeItem (flags sB) = Some 21%positive ∧
  hostAriaExpanded (flags sB) = Some "true" ∧
  ariaExpanded (flags sB) !! 21%positive = Some "true".
Proof.
  intros sA sB.
  refine (proj2 (switch_clears_previous_flag_first calm (pointerenter 20) sA
                   20%positive 1%positive 11%positive 21%positive
                   eq_refl eq_refl _ _ _)).
  - vm_compute. reflexivity.
  - vm_compute. reflexivity.
  - discriminate.
Defined.

(** C6: the code departs from the claim on the submenu mark.  Entry A of
    the sample menu is active and the pointer enters entry B: after the
    switch B is the active item and the expanded flag of A is "false",
    but the submenu of A still carries [data-active].  [activate] only
    clears the expanded flag of the previous item; [#deactivate], run on
    the same state, does delete the mark. *)
Lemma previous_submenu_stays_marked :
  let sA := activate calm (pointerenter 10) idle in
  let sB := activate calm (pointerenter 20) sA in
  activeItem (flags sA) = Some 11%positive ∧
  findSubmenu calm (Some 11%positive) = Some 12%positive ∧
  activeItem (flags sB) = Some 21%positive ∧
  ariaExpanded (flags sB) !! 11%positive = Some "false" ∧
  bool_decide (12%positive ∈ dataActive (flags sB)) = true ∧
  bool_decide (12%positive ∈ dataActive (flags (deactivate_active calm sA))) = false.
Proof. vm_compute. repeat split. Qed.

(** *** Suppressed deactivation *)

(** C8, as the code has it: a deactivation input changes nothing at
    all (active item, expanded flags, published height and opacity, the
    trace) in each of these situations: it carries a related target and
    the focused element is inside the active item's own submenu; it is a
    blur whose related target is inside that submenu; its related
    target's parent is slotted into the overflow; the overflow list is
    hovered; the overflow panel is hovered. *)
Theorem deactivate_suppressed (d : Dom) (event : Event) (s : Menu) :
  (∃ rt menu focused,
      relatedTarget event = Some rt ∧
      findSubmenu d (activeItem (flags s)) = Some menu ∧
      activeElement d = Some focused ∧ contains d menu focused = true) ∨
  (∃ rt menu,
      relatedTarget event = Some rt ∧ type event = "blur" ∧
      findSubmenu d (activeItem (flags s)) = Some menu ∧
      contains d menu rt = true) ∨
  (∃ rt p,
      relatedTarget event = Some rt ∧ parentElement d rt = Some p ∧
      slot d p = "overflow") ∨
  overflowListHovered d = true ∨
  (∃ panel, overflowMenu d = Some panel ∧ hovered d panel = true) →
  deactivate d event s = s.
Proof.
  intros H. unfold deactivate. destruct (target event) as [tgt|]; [|reflexivity].
  assert (Hhover : overflowListHovered d = true ∨
                   from_option (hovered d) false (overflowMenu d) = true →
                   deactivate_active d s = s).
  { intros Hh. unfold deactivate_active, deactivate_item.
    destruct (activeItem (flags s)) as [it|]; [|reflexivity].
    rewrite decide_True by reflexivity.
    destruct Hh as [-> | ->]; [reflexivity | by rewrite orb_true_r]. }
  destruct H as [(rt & menu & focused & Hrt & Hm & Hf & Hc)
               | [(rt & menu & Hrt & Hty & Hm & Hc)
               | [(rt & p & Hrt & Hp & Hs)
               | [Hl | (panel & Hp & Hh)]]]].
  - unfold isMovingWithinMenu. rewrite Hrt, Hm, Hf, Hc. reflexivity.
  - replace (isMovingToSubmenu d event s) with true; [by rewrite orb_true_r|].
    unfold isMovingToSubmenu. rewrite Hrt, Hty, Hm, Hc. reflexivity.
  - replace (isMovingToOverflowMenu d event) with true;
      [by rewrite orb_true_r|].
    unfold isMovingToOverflowMenu. rewrite Hrt, Hp, Hs. reflexivity.
  - rewrite Hhover by auto. by destruct (_ || _).
  - rewrite Hhover by (right; rewrite Hp; exact Hh). by destruct (_ || _).
Qed.

(** Entry A is open, the keyboard focus is on the link inside its
    submenu, and the pointer leaves the entry towards that link. *)
Lemma deactivate_suppressed_witness :
  let d := sample_dom (Some 13%positive) false false in
  let sA := activate calm (pointerenter 10) idle in
  deactivate d (pointerleave 10 (Some 13%positive)) sA = sA.
Proof.
  intros d sA. apply deactivate_suppressed. left.
  exists 13%positive, 12%positive, 13%positive.
  repeat split; vm_compute; reflexivity.
Defined.

(** C8, as stated, fails for an input without a related target and for
    the pointer: with the focus inside the submenu of the active entry
    A, a pointerleave that has no related target deactivates A; and so
    does a pointerleave whose pointer moves into that submenu while the
    focus is elsewhere.  The published height goes to 0px. *)
Lemma activation_cleared_inside_own_submenu :
  let sA := activate calm (pointerenter 10) idle in
  let focus_inside := deactivate (sample_dom (Some 13%positive) false false)
                        (pointerleave 10 None) sA in
  let pointer_inside := deactivate calm (pointerleave 10 (Some 13%positive)) sA in
  activeItem (flags sA) = Some 11%positive ∧
  findSubmenu calm (Some 11%positive) = Some 12%positive ∧
  contains calm 12%positive 13%positive = true ∧
  published_height 1%positive sA = Some "200px" ∧
  activeItem (flags focus_inside) = None ∧
  ariaExpanded (flags focus_inside) !! 11%positive = Some "false" ∧
  published_height 1%positive focus_inside = Some "0px" ∧
  activeItem (flags pointer_inside) = None ∧
  published_height 1%positive pointer_inside = Some "0px".
Proof. vm_compute. repeat split. Qed.

(** *** The published submenu height *)

Lemma mapSubmenus_hide (d : Dom) (links : list elem) (s : Menu) :
  let s' := mapSubmenus d links (λ sm, SetDisplay sm "none") s in
  inlineDisplay (styles s') = hide_all (nested_submenus d links) (inlineDisplay (styles s)) ∧
  styleProps (styles s') = styleProps (styles s).
Proof.
  unfold mapSubmenus, nested_submenus, hide_all. revert s.
  induction links as [|link links IH]; intros s; simpl; [by split|].
  destruct (querySelector_submenu d link) as [sm|]; simpl.
  - destruct (IH (perform (SetDisplay sm "none") s)) as (-> & ->). by split.
  - apply IH.
Qed.

Lemma mapSubmenus_unhide (d : Dom) (links : list elem) (s : Menu) :
  let s' := mapSubmenus d links RemoveDisplay s in
  inlineDisplay (styles s') = unhide_all (nested_submenus d links) (inlineDisplay (styles s)) ∧
  styleProps (styles s') = styleProps (styles s).
Proof.
  unfold mapSubmenus, nested_submenus, unhide_all. revert s.
  induction links as [|link links IH]; intros s; simpl; [by split|].
  destruct (querySelector_submenu d link) as [sm|]; simpl.
  - destruct (IH (perform (RemoveDisplay sm) s)) as (-> & ->). by split.
  - apply IH.
Qed.

(** While the links are measured, each nested submenu is hidden. *)
Lemma hide_all_hidden (sms : list elem) (display : gmap elem string) (sm : elem) :
  sm ∈ sms → hide_all sms display !! sm = Some "none".
Proof.
  unfold hide_all. revert display.
  induction sms as [|x sms IH]; intros display Hin; [by inversion Hin|].
  simpl. destruct (decide (sm ∈ sms)) as [Hs|Hs]; [by apply IH|].
  assert (sm = x) as -> by (inversion Hin; by subst).
  clear IH Hin. revert display.
  induction sms as [|y sms IH]; intros display; simpl.
  - apply lookup_insert_eq.
  - rewrite not_elem_of_cons in Hs. destruct Hs as (Hxy & Hs).
    rewrite insert_insert_ne by congruence. by apply IH.
Qed.

Lemma getOverflowListLinksHeight_value (d : Dom) (s : Menu) :
  (getOverflowListLinksHeight d s).1 =
    or0 (offsetHeight d (display_while_measuring d (inlineDisplay (styles s)))
           <$> overflowMenu d) ∧
  styleProps (styles (getOverflowListLinksHeight d s).2) = styleProps (styles s).
Proof.
  unfold getOverflowListLinksHeight, display_while_measuring, height.
  destruct (overflowMenu d ≫= assignedElements d) as [links|]; simpl; [|by split].
  destruct (mapSubmenus_hide d links s) as (Hd & Hp).
  destruct (mapSubmenus_unhide d links
              (mapSubmenus d links (λ sm, SetDisplay sm "none") s)) as (_ & Hp').
  cbv zeta in Hd, Hp, Hp'. rewrite Hd, Hp', Hp. by split.
Qed.

Lemma publish_published (d : Dom) (header : elem) (h : Z) (s : Menu) :
  headerComponent d = Some header →
  published_height header (publish d header h s) = Some (px h) ∧
  inlineDisplay (styles (publish d header h s)) = inlineDisplay (styles s).
Proof.
  intros Hh. unfold publish, published_height, setFullOpenHeaderHeight.
  rewrite Hh. menu_simpl. split; [|reflexivity].
  rewrite lookup_insert_ne by (intros [=]). apply lookup_insert_eq.
Qed.

Lemma watch_submenu_styles (submenu : option elem) (s : Menu) :
  styles (watch_submenu submenu s) = styles s.
Proof.
  eapply emits_styles; [|apply watch_submenu_emits].
  intros e [-> | [sm ->]]; discriminate.
Qed.

Lemma switch_active_styles (d : Dom) (tgt item : elem) (s : Menu) :
  styles (switch_active d tgt item s) = styles s.
Proof.
  eapply emits_styles; [|apply switch_active_emits]. intros e ->. discriminate.
Qed.

(** C5, as the code has it: when an item outside the default slot is
    activated, the published submenu height is the height of the
    overflow panel measured with the nested submenus of its listed links
    hidden; the maximum of that and the panel's rendered height is
    taken only when the item has a submenu of its own. *)
Theorem overflow_activation_height
    (d : Dom) (event : Event) (s : Menu) (tgt header item : elem) :
  target event = Some tgt → headerComponent d = Some header →
  findMenuItem d (Some tgt) = Some item → activeItem (flags s) ≠ Some item →
  slot d tgt ≠ EmptyString →
  let s' := activate d event s in
  let listHeight :=
    or0 (offsetHeight d (display_while_measuring d (inlineDisplay (styles s)))
           <$> overflowMenu d) in
  let panelHeight := or0 (height d s' <$> overflowMenu d) in
  published_height header s' =
    Some (px (match findSubmenu d (Some item) with
              | Some _ => Z.max panelHeight listHeight
              | None => listHeight
              end)) ∧
  (∀ links sm, overflowMenu d ≫= assignedElements d = Some links →
     sm ∈ nested_submenus d links →
     display_while_measuring d (inlineDisplay (styles s)) !! sm = Some "none").
Proof.
  intros Ht Hh Hi Hne Hslot. cbv zeta. split.
  2:{ intros links sm Hl Hsm. unfold display_while_measuring. rewrite Hl.
      by apply hide_all_hidden. }
  rewrite (activate_passes d event s tgt header item Ht Hh Hi Hne).
  unfold activate_item.
  set (s2 := watch_submenu (submenu_for d tgt item)
               (switch_active d tgt item (perform DispatchMegaMenuHover s))).
  assert (Hs2 : styles s2 = styles s).
  { unfold s2. by rewrite watch_submenu_styles, switch_active_styles. }
  unfold measure_height, submenu_for.
  assert (Hdef : String.eqb (slot d tgt) EmptyString = false) by (by apply String.eqb_neq).
  rewrite Hdef. simpl negb. cbv iota.
  destruct (getOverflowListLinksHeight_value d s2) as (Hv & _).
  destruct (getOverflowListLinksHeight d s2) as [lh s3] eqn:Hg.
  simpl in Hv. rewrite Hs2 in Hv.
  destruct (findSubmenu d (Some item)) as [own|] eqn:Hown.
  - rewrite bool_decide_true by eauto. simpl andb. cbv iota.
    destruct (publish_published d header
                (Z.max (or0 (height d s3 <$> overflowMenu d)) lh) s3 Hh) as (Hp & Hdisp).
    rewrite Hp. unfold height in *. rewrite Hdisp, Hv. reflexivity.
  - rewrite bool_decide_false by (intros [? ?]; discriminate). simpl andb. cbv iota.
    destruct (overflowMenu d) as [panel|] eqn:Hpanel.
    + destruct (publish_published d header lh s3 Hh) as (Hp & _).
      rewrite Hp, Hv. reflexivity.
    + destruct (publish_published d header 0 s3 Hh) as (Hp & _).
      rewrite Hp. reflexivity.
Qed.

(** The pointer enters the overflowing entry that has a submenu: the
    panel is 300px high, its links alone 120px. *)
Lemma overflow_activation_height_witness :
  published_height 1%positive (activate calm (pointerenter 45) idle) = Some "300px".
Proof.
  destruct (overflow_activation_height calm (pointerenter 45) idle
              45%positive 1%positive 46%positive eq_refl eq_refl)
    as (H & _).
  - vm_compute. reflexivity.
  - discriminate.
  - vm_compute. discriminate.
  - rewrite H. vm_compute. reflexivity.
Defined.

(** C5, as stated, fails for an item without a submenu of its own: the
    "More" trigger leads to the first overflowing entry, which has none;
    the panel is rendered 300px high, its links measure 120px with the
    nested submenus hidden, and 120px is published, not the maximum. *)
Lemma more_trigger_publishes_links_height :
  let s' := activate calm (pointerenter 30) idle in
  slot calm 30%positive = "more" ∧
  activeItem (flags s') = Some 41%positive ∧
  height calm s' 50%positive = 300 ∧
  offsetHeight calm (display_while_measuring calm (inlineDisplay (styles idle))) 50%positive = 120 ∧
  published_height 1%positive s' = Some "120px" ∧
  px (Z.max 300 120) = "300px".
Proof. vm_compute. repeat split. Qed.

(** *** The deferred-content watcher *)

Lemma cleanupMutationObserver_performs (s : Menu) :
  cleanupMutationObserver s = performs (cleanup_effects (watcher s)) s.
Proof.
  unfold cleanupMutationObserver, cleanup_effects.
  destruct (submenuMutationObserver (watcher s)); reflexivity.
Qed.

(** After the cleanup no watcher is attached and none is held. *)
Lemma cleanup_detaches (s : Menu) :
  watcher_held (watcher s) →
  let w' := watcher (cleanupMutationObserver s) in
  observing w' = ∅ ∧ submenuMutationObserver w' = None ∧
  timers w' = timers (watcher s) ∧ now w' = now (watcher s) ∧
  nextObserver w' = nextObserver (watcher s).
Proof.
  intros Hheld. rewrite cleanupMutationObserver_performs. unfold cleanup_effects.
  destruct (submenuMutationObserver (watcher s)) as [o|] eqn:Hf; menu_simpl.
  - repeat split. apply map_empty. intros o'.
    destruct (decide (o = o')) as [<-|Hne]; [apply lookup_delete_eq|].
    rewrite lookup_delete_ne by exact Hne.
    destruct (observing (watcher s) !! o') as [x|] eqn:Hx; [|reflexivity].
    specialize (Hheld o' x Hx). congruence.
  - repeat split. apply map_empty. intros o'.
    destruct (observing (watcher s) !! o') as [x|] eqn:Hx; [|reflexivity].
    specialize (Hheld o' x Hx). congruence.
Qed.

Lemma detached_bounded (w : Watcher) :
  observing w = ∅ → watcher_held w ∧ watcher_timed w.
Proof.
  intros He. split.
  - intros o x. rewrite He, lookup_empty. discriminate.
  - intros o sm t0. rewrite He, lookup_empty. discriminate.
Qed.

Lemma cleanup_bounded (s : Menu) :
  watcher_held (watcher s) →
  watcher_held (watcher (cleanupMutationObserver s)) ∧
  watcher_timed (watcher (cleanupMutationObserver s)).
Proof.
  intros Hh. destruct (cleanup_detaches s Hh) as (He & _).
  by apply detached_bounded.
Qed.

(** The watcher part after an activation marked and watched a submenu. *)
Lemma watch_submenu_watcher (sm : elem) (s : Menu) :
  watcher_held (watcher s) →
  let w' := watcher (watch_submenu (Some sm) s) in
  observing w' = {[ nextObserver (watcher s) := (sm, now (watcher s)) ]} ∧
  submenuMutationObserver w' = Some (nextObserver (watcher s)) ∧
  timers w' = timers (watcher s) ++ [(now (watcher s) + 500)%nat] ∧
  now w' = now (watcher s).
Proof.
  intros Hheld. unfold watch_submenu. menu_simpl.
  destruct (cleanup_detaches (perform (SetDataActive sm) s) Hheld)
    as (He & _ & Ht & Hn & Hnext).
  cbv zeta in He, Ht, Hn, Hnext. menu_simpl.
  rewrite He, Ht, Hn, Hnext. menu_simpl. by repeat split.
Qed.


Lemma activate_item_after_watch (d : Dom) (tgt header item : elem) (s : Menu) :
  emits (writes OfStyles)
    (watch_submenu (submenu_for d tgt item) (switch_active d tgt item s))
    (activate_item d tgt header item s).
Proof.
  unfold activate_item.
  pose proof (measure_height_emits d tgt item
                (watch_submenu (submenu_for d tgt item) (switch_active d tgt item s))) as Hm.
  destruct (measure_height d tgt item _) as [h s3]. simpl in Hm.
  eapply emits_trans; [exact Hm | apply publish_emits].
Qed.

Lemma switch_active_watcher (d : Dom) (tgt item : elem) (s : Menu) :
  watcher (switch_active d tgt item s) = watcher s.
Proof.
  eapply emits_watcher; [|apply switch_active_emits]. intros e ->. discriminate.
Qed.

Lemma activate_item_watcher (d : Dom) (tgt header item : elem) (s : Menu) :
  watcher (activate_item d tgt header item s) =
    watcher (watch_submenu (submenu_for d tgt item) (switch_active d tgt item s)).
Proof.
  eapply emits_watcher; [|apply activate_item_after_watch].
  intros e ->. discriminate.
Qed.

Lemma held_ext (w w' : Watcher) :
  observing w' = observing w → submenuMutationObserver w' = submenuMutationObserver w →
  watcher_held w → watcher_held w'.
Proof. intros Ho Hf H o x. rewrite Ho, Hf. apply H. Qed.

Lemma deactivation_keeps_watcher_aux (d : Dom) (event : Event) (s : Menu) :
  watcher (deactivate d event s) = watcher s ∧
  watcher (overflowSubmenuListener d s) = watcher s.
Proof.
  assert (H : ∀ item, watcher (deactivate_item d item s) = watcher s).
  { intros item.
    destruct (deactivate_item_cases d item s)
      as [-> | (it & _ & _ & _ & _ & _ & _ & _ & Hw)]; [reflexivity | exact Hw]. }
  split; [|apply H]. unfold deactivate.
  destruct (target event); [|reflexivity].
  destruct (_ || _); [reflexivity | apply H].
Qed.

Lemma frameCallback_bounded (d : Dom) (cb : frame_cb) (s : Menu) :
  watcher_held (watcher s) ∧ watcher_timed (watcher s) →
  watcher_held (watcher (frameCallback d cb s)) ∧
  watcher_timed (watcher (frameCallback d cb s)).
Proof.
  intros (Hh & Ht). unfold frameCallback. destruct cb as [sm|sm].
  - menu_simpl. by split.
  - destruct (Z.ltb 0 (height d s sm)); [|by split].
    apply cleanup_bounded; destruct (headerComponent d); menu_simpl; exact Hh.
Qed.

Lemma frames_bounded (d : Dom) (cbs : list frame_cb) (s : Menu) :
  watcher_held (watcher s) ∧ watcher_timed (watcher s) →
  let s' := fold_left (λ s cb, frameCallback d cb s) cbs s in
  watcher_held (watcher s') ∧ watcher_timed (watcher s').
Proof.
  revert s. induction cbs as [|cb cbs IH]; intros s H; simpl; [exact H|].
  apply IH. by apply frameCallback_bounded.
Qed.

(** Every turn of the event loop keeps the watcher held and timed. *)
Lemma step_bounded (i : input) (s s' : Menu) :
  step i s = Some s' →
  watcher_held (watcher s) ∧ watcher_timed (watcher s) →
  watcher_held (watcher s') ∧ watcher_timed (watcher s').
Proof.
  intros Hstep (Hh & Ht).
  assert (Hsame : watcher s' = watcher s →
                  watcher_held (watcher s') ∧ watcher_timed (watcher s')).
  { intros ->. by split. }
  assert (Hdeact : ∀ d item, watcher (deactivate_item d item s) = watcher s).
  { intros d item.
    destruct (deactivate_item_cases d item s)
      as [-> | (it & _ & _ & _ & _ & _ & _ & _ & Hw)]; [reflexivity | exact Hw]. }
  destruct i as [d ev|d ev|d| |o|d| |dt]; simpl in Hstep.
  - injection Hstep as <-.
    destruct (activate_cases d ev s)
      as [Hb | (tgt & header & item & _ & _ & _ & _ & Hp)];
      [apply Hsame; by rewrite Hb|].
    rewrite Hp, activate_item_watcher.
    set (s1 := switch_active d tgt item (perform DispatchMegaMenuHover s)).
    assert (Hw1 : watcher s1 = watcher s)
      by (unfold s1; rewrite switch_active_watcher; reflexivity).
    destruct (submenu_for d tgt item) as [sm|];
      [|change (watch_submenu None s1) with s1; rewrite Hw1; by split].
    destruct (watch_submenu_watcher sm s1) as (Ho & Hf & Hti & Hn);
      [by rewrite Hw1|].
    cbv zeta in Ho, Hf, Hti, Hn. rewrite Hw1 in Ho, Hf, Hti, Hn.
    split.
    + intros o x. rewrite Ho, Hf. intros Hx.
      apply lookup_singleton_Some in Hx. destruct Hx as (<- & _). reflexivity.
    + intros o sm' t0. rewrite Ho, Hti. intros Hx.
      apply lookup_singleton_Some in Hx. destruct Hx as (_ & [= _ <-]).
      apply elem_of_app. right. apply list_elem_of_singleton. reflexivity.
  - injection Hstep as <-. apply Hsame. unfold deactivate.
    destruct (target ev); [|reflexivity].
    destruct (_ || _); [reflexivity|]. apply Hdeact.
  - injection Hstep as <-. apply Hsame. apply Hdeact.
  - injection Hstep as <-. by apply cleanup_bounded.
  - destruct (observing (watcher s) !! o) as [[sm t0]|]; [|discriminate].
    injection Hstep as <-. unfold mutationCallback. menu_simpl. by split.
  - injection Hstep as <-. apply frames_bounded. unfold with_frames. menu_simpl.
    by split.
  - destruct (timers (watcher s)) as [|due rest] eqn:Hti; [discriminate|].
    destruct (due <=? now (watcher s))%nat; [|discriminate].
    injection Hstep as <-. unfold timeoutCallback.
    apply cleanup_bounded; unfold with_timers; menu_simpl; exact Hh.
  - injection Hstep as <-. unfold with_now. menu_simpl. by split.
Qed.

Lemma steps_bounded (ins : list input) (s s' : Menu) :
  steps ins s s' →
  watcher_held (watcher s) ∧ watcher_timed (watcher s) →
  watcher_held (watcher s') ∧ watcher_timed (watcher s').
Proof.
  induction 1 as [|i ins s s1 s2 Hstep _ IH]; [auto|].
  intros Hinv. apply IH. by eapply step_bounded.
Qed.

Lemma initial_bounded (s : Menu) :
  initial s → watcher_held (watcher s) ∧ watcher_timed (watcher s).
Proof. intros (_ & _ & _ & Ho & _). by apply detached_bounded. Qed.

Lemma reachable_bounded (s : Menu) :
  reachable s → watcher_held (watcher s) ∧ watcher_timed (watcher s).
Proof.
  intros (s0 & ins & Hinit & Hsteps).
  eapply steps_bounded; [exact Hsteps | by apply initial_bounded].
Qed.

Lemma steps_snoc (ins : list input) (i : input) (s0 s s' : Menu) :
  steps ins s0 s → step i s = Some s' → steps (ins ++ [i]) s0 s'.
Proof.
  induction 1 as [|j ins s0 s1 s2 Hj _ IH]; intros Hi; simpl.
  - eapply steps_cons; [exact Hi | apply steps_nil].
  - eapply steps_cons; [exact Hj | by apply IH].
Qed.

(** The animation-frame callbacks never touch the inline [display]
    values, so they measure under the ones they were queued under. *)
Lemma frameCallback_display (d : Dom) (cb : frame_cb) (s : Menu) :
  inlineDisplay (styles (frameCallback d cb s)) = inlineDisplay (styles s).
Proof.
  unfold frameCallback. destruct cb as [sm|sm]; [reflexivity|].
  destruct (Z.ltb 0 (height d s sm)); [|reflexivity].
  rewrite cleanupMutationObserver_performs. unfold cleanup_effects.
  destruct (headerComponent d); menu_simpl;
    destruct (submenuMutationObserver (watcher s)); reflexivity.
Qed.

Lemma frames_display (d : Dom) (cbs : list frame_cb) (s : Menu) :
  inlineDisplay (styles (fold_left (λ s cb, frameCallback d cb s) cbs s))
  = inlineDisplay (styles s).
Proof.
  revert s. induction cbs as [|cb cbs IH]; intros s; simpl; [reflexivity|].
  rewrite IH. apply frameCallback_display.
Qed.

(** A mutation delivered to the watcher of [sm] and the two animation
    frames after it: the second frame ends with the measurement of [sm],
    which runs after the callbacks that were queued before it. *)
Lemma mutation_then_two_frames
    (d1 d2 : Dom) (s : Menu) (o : nat) (sm : elem) (t0 : nat) :
  watcher_held (watcher s) ∧ watcher_timed (watcher s) →
  observing (watcher s) !! o = Some (sm, t0) →
  ∃ s1 s2 before,
    step (Mutation o) s = Some s1 ∧
    step (AnimationFrame d1) s1 = Some s2 ∧
    step (AnimationFrame d2) s2 = Some (frameCallback d2 (InnerFrame sm) before) ∧
    watcher_held (watcher before) ∧
    inlineDisplay (styles before) = inlineDisplay (styles s2) ∧
    inlineDisplay (styles s2) = inlineDisplay (styles s) ∧
    (frames (watcher s) = [] →
       styles s2 = styles s ∧ observing (watcher s2) = observing (watcher s) ∧
       styles before = styles s ∧ observing (watcher before) = observing (watcher s)).
Proof.
  intros Hb Ho.
  set (s1 := mutationCallback sm s).
  set (sF := fold_left (λ s cb, frameCallback d1 cb s) (frames (watcher s))
               (with_frames [] s1)).
  set (s2 := perform (RequestAnimationFrame (InnerFrame sm)) sF).
  set (before := fold_left (λ s cb, frameCallback d2 cb s) (frames (watcher sF))
                   (with_frames [] s2)).
  assert (HbF : watcher_held (watcher sF) ∧ watcher_timed (watcher sF)).
  { apply frames_bounded. unfold s1, mutationCallback, with_frames. menu_simpl.
    exact Hb. }
  assert (Hbb : watcher_held (watcher before) ∧ watcher_timed (watcher before)).
  { apply frames_bounded. unfold s2, with_frames. menu_simpl. exact HbF. }
  exists s1, s2, before.
  split; [simpl; rewrite Ho; reflexivity|].
  split.
  { unfold step. f_equal.
    change (frames (watcher s1)) with (frames (watcher s) ++ [OuterFrame sm]).
    rewrite fold_left_app. reflexivity. }
  split.
  { unfold step. f_equal.
    change (frames (watcher s2)) with (frames (watcher sF) ++ [InnerFrame sm]).
    rewrite fold_left_app. reflexivity. }
  split; [apply Hbb|].
  split; [unfold before; by rewrite frames_display|].
  split; [unfold s2, sF; menu_simpl; by rewrite frames_display|].
  intros Hfr. unfold before, s2, sF. rewrite Hfr. cbn [fold_left].
  unfold with_frames, s1, mutationCallback. menu_simpl. by repeat split.
Qed.




(** *** Deactivation *)

Lemma px_0 : px 0 = "0px".
Proof. reflexivity. Qed.

(** X6: a deactivation that no guard holds back resets the menu: no item
    is active, the expanded flags of the item and of the menu and the
    overflow flag are "false", the published submenu height and
    full-open header height are 0px and the opacity is 0; of the
    [data-active] marks exactly the one on the item's own submenu is
    removed; the watcher, its timers and the queued frames are left as
    they are. *)
Theorem deactivation_resets_menu
    (d : Dom) (event : Event) (s : Menu) (tgt it header : elem) :
  target event = Some tgt → activeItem (flags s) = Some it →
  headerComponent d = Some header →
  isMovingWithinMenu d event s = false →
  isMovingToOverflowMenu d event = false →
  isMovingToSubmenu d event s = false →
  overflowListHovered d = false →
  from_option (hovered d) false (overflowMenu d) = false →
  let s' := deactivate d event s in
  activeItem (flags s') = None ∧
  ariaExpanded (flags s') !! it = Some "false" ∧
  hostAriaExpanded (flags s') = Some "false" ∧
  overflowExpanded (flags s') = Some "false" ∧
  published_height header s' = Some "0px" ∧
  published_full_height header s' = Some "0px" ∧
  published_opacity s' = Some "0" ∧
  dataActive (flags s') =
    match findSubmenu d (Some it) with
    | Some sm => dataActive (flags s) ∖ {[sm]}
    | None => dataActive (flags s)
    end ∧
  watcher s' = watcher s.
Proof.
  intros Ht Ha Hh H1 H2 H3 Hl Hp.
  unfold deactivate. rewrite Ht, H1, H2, H3. simpl orb. cbv iota.
  unfold deactivate_active, deactivate_item. rewrite Ha.
  rewrite decide_True by reflexivity. rewrite Hl, Hp. simpl orb. cbv iota.
  rewrite Hh. unfold setFullOpenHeaderHeight. rewrite Hh.
  change (Z.eqb 0 0) with true. cbv iota. rewrite px_0.
  unfold published_height, published_full_height, published_opacity.
  destruct (findSubmenu d (Some it)) as [sm|]; menu_simpl.
  all: rewrite !lookup_insert_eq.
  all: rewrite lookup_insert_ne by (intros [=]).
  all: rewrite lookup_insert_eq.
  all: by repeat split.
Qed.

(** The pointer leaves the open entry A for good. *)
Lemma deactivation_resets_menu_witness :
  let sA := activate calm (pointerenter 10) idle in
  let s' := deactivate calm (pointerleave 10 None) sA in
  activeItem (flags s') = None ∧ published_height 1%positive s' = Some "0px".
Proof.
  intros sA s'.
  destruct (deactivation_resets_menu calm (pointerleave 10 None) sA
              10%positive 11%positive 1%positive)
    as (Ha & _ & _ & _ & Hp & _); try (vm_compute; reflexivity).
  split; [exact Ha | exact Hp].
Defined.

(** X7: a deactivation input does nothing when no item is active or when
    its target is not an element; neither does the pointer leaving the
    overflow panel while no item is active. *)
Theorem deactivation_when_idle_is_noop (d : Dom) (event : Event) (s : Menu) :
  (target event = None → deactivate d event s = s) ∧
  (activeItem (flags s) = None →
     deactivate d event s = s ∧ overflowSubmenuListener d s = s).
Proof.
  split.
  - intros Ht. unfold deactivate. by rewrite Ht.
  - intros Ha.
    assert (H : deactivate_active d s = s)
      by (unfold deactivate_active; by rewrite Ha).
    split; [|exact H]. unfold deactivate.
    destruct (target event); [|reflexivity].
    destruct (_ || _); [reflexivity | exact H].
Qed.

Lemma deactivation_when_idle_is_noop_witness :
  deactivate calm (pointerleave 10 None) idle = idle.
Proof.
  exact (proj1 (proj2 (deactivation_when_idle_is_noop calm (pointerleave 10 None) idle)
                 eq_refl)).
Defined.

(** X8: no deactivation touches the deferred-content watcher: whatever the
    event and the document, the attached observer, the pending cleanup
    timers, the queued frame callbacks and the clock are the same
    before and after [deactivate], and before and after the pointer
    leaves the overflow panel. *)
Theorem deactivation_keeps_watcher (d : Dom) (event : Event) (s : Menu) :
  watcher (deactivate d event s) = watcher s ∧
  watcher (overflowSubmenuListener d s) = watcher s.
Proof. apply deactivation_keeps_watcher_aux. Qed.

(** *** The active item is expanded *)

Lemma step_active_is_expanded (i : input) (s s' : Menu) :
  step i s = Some s' → active_is_expanded s → active_is_expanded s'.
Proof.
  intros Hstep Hinv.
  assert (Hsame : flags s' = flags s → active_is_expanded s').
  { intros Hf j. unfold active_is_expanded in Hinv. rewrite Hf. apply Hinv. }
  assert (Hdeact : ∀ d item, active_is_expanded (deactivate_item d item s)).
  { intros d item.
    destruct (deactivate_item_cases d item s)
      as [-> | (it & _ & _ & _ & _ & Ha' & _ & _ & _)]; [exact Hinv|].
    intros j. rewrite Ha'. discriminate. }
  destruct i as [d ev|d ev|d| |o|d| |dt]; simpl in Hstep.
  - injection Hstep as <-.
    destruct (activate_cases d ev s)
      as [Hb | (tgt & header & item & _ & _ & _ & Hne & ->)];
      [apply Hsame; by rewrite Hb|].
    destruct (activate_item_selection d tgt header item (perform DispatchMegaMenuHover s))
      as (Ha & Hhost & He).
    intros j. rewrite Ha, Hhost, He. intros [= <-].
    split; [apply lookup_insert_eq | reflexivity].
  - injection Hstep as <-. unfold deactivate.
    destruct (target ev); [|exact Hinv].
    destruct (_ || _); [exact Hinv|]. apply Hdeact.
  - injection Hstep as <-. apply Hdeact.
  - injection Hstep as <-. apply Hsame.
    eapply emits_flags; [|apply cleanupMutationObserver_emits].
    intros e ->. discriminate.
  - destruct (observing (watcher s) !! o) as [[sm t0]|]; [|discriminate].
    injection Hstep as <-. by apply Hsame.
  - injection Hstep as <-. apply Hsame.
    transitivity (flags (with_frames [] s)); [|reflexivity].
    eapply emits_flags; [|apply frames_emit].
    intros e [-> | ->]; discriminate.
  - destruct (timers (watcher s)) as [|due rest]; [discriminate|].
    destruct (due <=? now (watcher s))%nat; [|discriminate].
    injection Hstep as <-. apply Hsame.
    transitivity (flags (with_timers rest s)); [|reflexivity].
    eapply emits_flags; [|apply cleanupMutationObserver_emits].
    intros e ->. discriminate.
  - injection Hstep as <-. by apply Hsame.
Qed.

(** X9: in every state the component can reach, the active item has its
    expanded flag "true" and so has the menu: the flags are never left
    behind an activation, whatever watcher, frame and timer callbacks
    run in between. *)
Theorem active_item_is_expanded (s : Menu) (i : elem) :
  reachable s → activeItem (flags s) = Some i →
  ariaExpanded (flags s) !! i = Some "true" ∧
  hostAriaExpanded (flags s) = Some "true".
Proof.
  intros (s0 & ins & Hinit & Hsteps).
  assert (H0 : active_is_expanded s0).
  { intros j Hj. destruct Hinit as (Hnone & _). congruence. }
  revert H0. clear Hinit.
  induction Hsteps as [|inp ins s1 s2 s3 Hstep _ IH]; intros H0.
  - apply H0.
  - apply IH. by eapply step_active_is_expanded.
Qed.

Lemma active_item_is_expanded_witness :
  let s := activate calm (pointerenter 10) idle in
  ariaExpanded (flags s) !! 11%positive = Some "true" ∧
  hostAriaExpanded (flags s) = Some "true".
Proof.
  intros s. apply active_item_is_expanded.
  - exists idle, [Activate calm (pointerenter 10)]. split; [by repeat split|].
    eapply steps_cons; [reflexivity | apply steps_nil].
  - vm_compute. reflexivity.
Defined.

(** *** What an activation publishes *)

Lemma publish_styles (d : Dom) (header : elem) (h : Z) (s : Menu) :
  headerComponent d = Some header →
  let s' := publish d header h s in
  published_height header s' = Some (px h) ∧
  published_full_height header s' =
    Some (px (if Z.eqb h 0 then 0 else h + headerVisibleHeight d s header)) ∧
  published_opacity s' = Some "1" ∧
  inlineDisplay (styles s') = inlineDisplay (styles s) ∧
  flags s' = flags s ∧ watcher s' = watcher s.
Proof.
  intros Hh. unfold publish, setFullOpenHeaderHeight. rewrite Hh.
  unfold published_height, published_full_height, published_opacity,
    headerVisibleHeight, height.
  menu_simpl. rewrite lookup_insert_ne by (intros [=]).
  rewrite !lookup_insert_eq. by repeat split.
Qed.

Lemma measure_height_display_default (d : Dom) (tgt item : elem) (s : Menu) :
  slot d tgt = EmptyString →
  measure_height d tgt item s =
    (or0 (height d s <$> findSubmenu d (Some item)), s).
Proof.
  intros Hs. unfold measure_height, submenu_for. rewrite Hs.
  change (String.eqb EmptyString EmptyString) with true. simpl negb.
  rewrite andb_false_r. cbv iota.
  by destruct (findSubmenu d (Some item)).
Qed.

Lemma headerVisibleHeight_display (d : Dom) (s1 s2 : Menu) (header : elem) :
  inlineDisplay (styles s1) = inlineDisplay (styles s2) →
  headerVisibleHeight d s1 header = headerVisibleHeight d s2 header.
Proof. intros H. unfold headerVisibleHeight, height. by rewrite H. Qed.

Lemma emits_overflowExpanded (K : effect → Prop) (s s' : Menu) :
  (∀ e, K e → ∀ v, e ≠ SetOverflowExpanded v) → emits K s s' →
  overflowExpanded (flags s') = overflowExpanded (flags s).
Proof.
  intros HK (l & -> & Hl). revert s.
  induction Hl as [|e l He Hl IH]; intros s; [reflexivity|].
  change (performs (e :: l) s) with (performs l (perform e s)).
  rewrite IH. menu_simpl. pose proof (HK e He) as Hk. clear He IH.
  destruct e; menu_simpl; try reflexivity. by destruct (Hk v).
Qed.

Lemma emits_dataActive (K : effect → Prop) (s s' : Menu) :
  (∀ e, K e → part_of e ≠ OfFlags) → emits K s s' →
  dataActive (flags s') = dataActive (flags s).
Proof. intros HK H. by rewrite (emits_flags K s s' HK H). Qed.

Lemma switch_active_overflowExpanded (d : Dom) (tgt item : elem) (s : Menu) :
  overflowExpanded (flags (switch_active d tgt item s)) =
    Some (bool_toString (negb (String.eqb (slot d tgt) EmptyString))).
Proof. unfold switch_active. menu_simpl. by destruct (activeItem (flags s)). Qed.

Lemma opens_submenu_keeps_overflow_flag (e : effect) (v : string) :
  opens_submenu e → e ≠ SetOverflowExpanded v.
Proof. intros [H | [H | [sm H]]] ->; discriminate. Qed.

(** X10: whatever item an activation opens, the published values belong
    together: with [h] the published submenu height, the full-open
    header height is 0px when [h] is 0 and otherwise [h] plus the
    visible height of the header (its top row when the submenu overlaps
    the bottom row and the header has a height, else the whole header);
    the opacity is 1; and the overflow flag says whether the target sits
    outside the default slot. *)
Theorem activation_publishes_full_open_height
    (d : Dom) (event : Event) (s : Menu) (tgt header item : elem) :
  target event = Some tgt → headerComponent d = Some header →
  findMenuItem d (Some tgt) = Some item → activeItem (flags s) ≠ Some item →
  let s' := activate d event s in
  ∃ h, published_height header s' = Some (px h) ∧
       published_full_height header s' =
         Some (px (if Z.eqb h 0 then 0 else h + headerVisibleHeight d s' header)) ∧
       published_opacity s' = Some "1" ∧
       overflowExpanded (flags s') =
         Some (bool_toString (negb (String.eqb (slot d tgt) EmptyString))).
Proof.
  intros Ht Hh Hi Hne. cbv zeta.
  rewrite (activate_passes d event s tgt header item Ht Hh Hi Hne).
  set (s0 := perform DispatchMegaMenuHover s).
  assert (Hov : overflowExpanded (flags (activate_item d tgt header item s0)) =
                Some (bool_toString (negb (String.eqb (slot d tgt) EmptyString)))).
  { rewrite (emits_overflowExpanded opens_submenu (switch_active d tgt item s0)
               (activate_item d tgt header item s0)).
    - apply switch_active_overflowExpanded.
    - intros e He v. by apply opens_submenu_keeps_overflow_flag.
    - apply activate_item_after_switch. }
  revert Hov. unfold activate_item.
  destruct (measure_height d tgt item _) as [h s3].
  destruct (publish_styles d header h s3 Hh) as (Hp & Hfull & Hop & Hdisp & _).
  cbv zeta in Hp, Hfull, Hop, Hdisp. intros Hov. exists h.
  rewrite (headerVisibleHeight_display d _ s3 header Hdisp).
  by repeat split.
Qed.

(** Entry A of the sample menu: a 200px submenu under a 64px header. *)
Lemma activation_publishes_full_open_height_witness :
  ∃ h, published_height 1%positive (activate calm (pointerenter 10) idle) = Some (px h).
Proof.
  destruct (activation_publishes_full_open_height calm (pointerenter 10) idle
              10%positive 1%positive 11%positive eq_refl eq_refl)
    as (h & Hp & _).
  - vm_compute. reflexivity.
  - discriminate.
  - exists h. exact Hp.
Defined.

(** X11: an activation through the default slot publishes the rendered
    height of the item's own submenu, and 0px when the item has none; it
    measures without touching any inline style of the submenus. *)
Theorem default_slot_activation_height
    (d : Dom) (event : Event) (s : Menu) (tgt header item : elem) :
  target event = Some tgt → headerComponent d = Some header →
  findMenuItem d (Some tgt) = Some item → activeItem (flags s) ≠ Some item →
  slot d tgt = EmptyString →
  let s' := activate d event s in
  published_height header s' =
    Some (px (match findSubmenu d (Some item) with
              | Some sm => offsetHeight d (inlineDisplay (styles s)) sm
              | None => 0
              end)) ∧
  inlineDisplay (styles s') = inlineDisplay (styles s).
Proof.
  intros Ht Hh Hi Hne Hslot. cbv zeta.
  rewrite (activate_passes d event s tgt header item Ht Hh Hi Hne).
  unfold activate_item.
  set (s2 := watch_submenu (submenu_for d tgt item)
               (switch_active d tgt item (perform DispatchMegaMenuHover s))).
  assert (Hs2 : styles s2 = styles s).
  { unfold s2. by rewrite watch_submenu_styles, switch_active_styles. }
  rewrite (measure_height_display_default d tgt item s2 Hslot).
  destruct (publish_styles d header
              (or0 (height d s2 <$> findSubmenu d (Some item))) s2 Hh)
    as (Hp & _ & _ & Hdisp & _).
  cbv zeta in Hp, Hdisp. rewrite Hp, Hdisp, Hs2. split; [|reflexivity].
  unfold height. rewrite Hs2.
  destruct (findSubmenu d (Some item)) as [sm|]; simpl; [|reflexivity].
  by destruct (Z.eqb_spec (offsetHeight d (inlineDisplay (styles s)) sm) 0) as [-> |].
Qed.

Lemma default_slot_activation_height_witness :
  published_height 1%positive (activate calm (pointerenter 10) idle) = Some "200px".
Proof.
  destruct (default_slot_activation_height calm (pointerenter 10) idle
              10%positive 1%positive 11%positive eq_refl eq_refl)
    as (Hp & _).
  - vm_compute. reflexivity.
  - discriminate.
  - vm_compute. reflexivity.
  - rewrite Hp. vm_compute. reflexivity.
Defined.

(** X12: an activation that finds no submenu to open (the item has none, and
    the target sits in the default slot or there is no overflow panel
    to fall back on) still makes the item the active one, but marks
    nothing, attaches no watcher and sets no timer, leaving a watcher
    of an earlier activation attached, and publishes 0px for both
    heights. *)
Theorem activation_without_content
    (d : Dom) (event : Event) (s : Menu) (tgt header item : elem) :
  target event = Some tgt → headerComponent d = Some header →
  findMenuItem d (Some tgt) = Some item → activeItem (flags s) ≠ Some item →
  submenu_for d tgt item = None →
  let s' := activate d event s in
  activeItem (flags s') = Some item ∧
  ariaExpanded (flags s') !! item = Some "true" ∧
  dataActive (flags s') = dataActive (flags s) ∧
  watcher s' = watcher s ∧
  published_height header s' = Some "0px" ∧
  published_full_height header s' = Some "0px".
Proof.
  intros Ht Hh Hi Hne Hsub. cbv zeta.
  rewrite (activate_passes d event s tgt header item Ht Hh Hi Hne).
  set (s0 := perform DispatchMegaMenuHover s).
  destruct (activate_item_selection d tgt header item s0) as (Ha & _ & He).
  split; [exact Ha|]. split; [rewrite He; apply lookup_insert_eq|].
  split; [|split].
  - unfold activate_item. rewrite Hsub.
    change (watch_submenu None (switch_active d tgt item s0))
      with (switch_active d tgt item s0).
    pose proof (measure_height_emits d tgt item (switch_active d tgt item s0)) as Hm.
    destruct (measure_height d tgt item _) as [h s3]. simpl in Hm.
    destruct (publish_styles d header h s3 Hh) as (_ & _ & _ & _ & Hf & _).
    cbv zeta in Hf. rewrite Hf.
    assert (Hd : dataActive (flags s3) =
                 dataActive (flags (switch_active d tgt item s0))).
    { eapply emits_dataActive; [|exact Hm]. intros e ->. discriminate. }
    rewrite Hd.
    unfold switch_active, s0. menu_simpl. by destruct (activeItem (flags s)).
  - rewrite activate_item_watcher, Hsub.
    change (watch_submenu None (switch_active d tgt item s0))
      with (switch_active d tgt item s0).
    by rewrite switch_active_watcher.
  - unfold activate_item. rewrite Hsub.
    change (watch_submenu None (switch_active d tgt item s0))
      with (switch_active d tgt item s0).
    assert (Hm : (measure_height d tgt item (switch_active d tgt item s0)).1 = 0).
    { unfold measure_height. rewrite Hsub.
      destruct (negb (String.eqb (slot d tgt) EmptyString)); [|reflexivity].
      destruct (getOverflowListLinksHeight d _) as [lh s4].
      by destruct (bool_decide _). }
    destruct (measure_height d tgt item _) as [h s3]. simpl in Hm. subst h.
    destruct (publish_styles d header 0 s3 Hh) as (Hp & Hfull & _).
    cbv zeta in Hp, Hfull. by rewrite Hp, Hfull.
Qed.

(** A plain link in the default slot: there is nothing to open. *)
Lemma activation_without_content_witness :
  let s' := activate bare (pointerenter 10) idle in
  activeItem (flags s') = Some 11%positive ∧ watcher s' = watcher idle.
Proof.
  intros s'.
  destruct (activation_without_content bare (pointerenter 10) idle
              10%positive 1%positive 11%positive eq_refl eq_refl)
    as (Ha & _ & _ & Hw & _).
  - vm_compute. reflexivity.
  - discriminate.
  - vm_compute. reflexivity.
  - split; [exact Ha | exact Hw].
Defined.

(** *** Measuring the listed links *)

Lemma unhide_all_lookup (sms : list elem) (display : gmap elem string) (el : elem) :
  unhide_all sms display !! el = if decide (el ∈ sms) then None else display !! el.
Proof.
  unfold unhide_all. revert display.
  induction sms as [|x sms IH]; intros display.
  - destruct (decide (el ∈ [])) as [Hin|]; [by inversion Hin | reflexivity].
  - change (fold_left (λ m sm, delete sm m) (x :: sms) display)
      with (fold_left (λ m sm, delete sm m) sms (delete x display)).
    rewrite IH.
    destruct (decide (el ∈ sms)) as [Hin|Hin];
      destruct (decide (el ∈ x :: sms)) as [Hin'|Hin']; try reflexivity.
    + exfalso. apply Hin'. by right.
    + assert (el = x) as -> by (inversion Hin'; by subst).
      apply lookup_delete_eq.
    + apply lookup_delete_ne. intros ->. apply Hin'. by left.
Qed.

Lemma hide_all_lookup (sms : list elem) (display : gmap elem string) (el : elem) :
  hide_all sms display !! el =
    if decide (el ∈ sms) then Some "none" else display !! el.
Proof.
  destruct (decide (el ∈ sms)) as [Hin|Hin]; [by apply hide_all_hidden|].
  unfold hide_all. revert display.
  induction sms as [|x sms IH]; intros display; simpl; [reflexivity|].
  rewrite not_elem_of_cons in Hin. destruct Hin as (Hne & Hin).
  rewrite IH by exact Hin. by apply lookup_insert_ne.
Qed.

(** X13: the measurement of the listed links cleans up after itself, in its
    own way: afterwards none of the nested submenus of the listed links
    has an inline [display] (not even one it had before the
    measurement), every other element's inline [display] is as before,
    and no flag, custom style property or watcher state has changed.
    When no nested submenu had an inline [display] to begin with, the
    styles are exactly as before.  Without a slot in the overflow panel
    nothing is written at all, and without an overflow panel the
    measured height is 0. *)
Theorem links_measurement_restores (d : Dom) (s : Menu) :
  let r := getOverflowListLinksHeight d s in
  flags r.2 = flags s ∧ watcher r.2 = watcher s ∧
  styleProps (styles r.2) = styleProps (styles s) ∧
  hostStyle (styles r.2) = hostStyle (styles s) ∧
  (overflowMenu d ≫= assignedElements d = None → r.2 = s) ∧
  (overflowMenu d = None → r.1 = 0) ∧
  (∀ links, overflowMenu d ≫= assignedElements d = Some links →
     (∀ el, inlineDisplay (styles r.2) !! el =
            if decide (el ∈ nested_submenus d links) then None
            else inlineDisplay (styles s) !! el) ∧
     ((∀ sm, sm ∈ nested_submenus d links → inlineDisplay (styles s) !! sm = None) →
      styles r.2 = styles s)).
Proof.
  cbv zeta.
  pose proof (getOverflowListLinksHeight_emits d s) as He.
  assert (Hhost : hostStyle (styles (getOverflowListLinksHeight d s).2)
                  = hostStyle (styles s)).
  { unfold getOverflowListLinksHeight.
    destruct (overflowMenu d ≫= assignedElements d) as [links|]; [|reflexivity].
    simpl. unfold mapSubmenus.
    assert (H : ∀ cb, (∀ sm, cb sm = SetDisplay sm "none" ∨ cb sm = RemoveDisplay sm) →
                ∀ s0, hostStyle (styles (fold_left
                        (λ s link, match querySelector_submenu d link with
                                   | Some sm => perform (cb sm) s
                                   | None => s
                                   end) links s0)) = hostStyle (styles s0)).
    { intros cb Hcb. induction links as [|link links IH]; intros s0; [reflexivity|].
      simpl. rewrite IH. destruct (querySelector_submenu d link) as [sm|]; [|reflexivity].
      by destruct (Hcb sm) as [-> | ->]. }
    rewrite (H RemoveDisplay) by (by right).
    apply (H (λ sm, SetDisplay sm "none")). by left. }
  assert (Hdisp : ∀ links, overflowMenu d ≫= assignedElements d = Some links →
            inlineDisplay (styles (getOverflowListLinksHeight d s).2) =
              unhide_all (nested_submenus d links)
                (hide_all (nested_submenus d links) (inlineDisplay (styles s)))).
  { intros links Hl. unfold getOverflowListLinksHeight. rewrite Hl. simpl.
    destruct (mapSubmenus_unhide d links
                (mapSubmenus d links (λ sm, SetDisplay sm "none") s)) as (Hu & _).
    destruct (mapSubmenus_hide d links s) as (Hh & _).
    cbv zeta in Hu, Hh. by rewrite Hu, Hh. }
  assert (Hlook : ∀ links, overflowMenu d ≫= assignedElements d = Some links →
            ∀ el, inlineDisplay (styles (getOverflowListLinksHeight d s).2) !! el =
                  if decide (el ∈ nested_submenus d links) then None
                  else inlineDisplay (styles s) !! el).
  { intros links Hl el. rewrite (Hdisp links Hl), unhide_all_lookup.
    destruct (decide (el ∈ nested_submenus d links)) as [Hin|Hin]; [reflexivity|].
    rewrite hide_all_lookup. by rewrite decide_False. }
  split; [eapply emits_flags; [|exact He]; intros e ->; discriminate|].
  split; [eapply emits_watcher; [|exact He]; intros e ->; discriminate|].
  split; [apply getOverflowListLinksHeight_value|].
  split; [exact Hhost|].
  split; [intros Hn; unfold getOverflowListLinksHeight; by rewrite Hn|].
  split; [intros Hn; unfold getOverflowListLinksHeight; by rewrite Hn|].
  intros links Hl. split; [by apply Hlook|].
  intros Hclean.
  assert (Hd : inlineDisplay (styles (getOverflowListLinksHeight d s).2)
               = inlineDisplay (styles s)).
  { apply map_eq. intros el. rewrite (Hlook links Hl).
    destruct (decide (el ∈ nested_submenus d links)) as [Hin|Hin]; [|reflexivity].
    symmetry. by apply Hclean. }
  destruct (getOverflowListLinksHeight_value d s) as (_ & Hp).
  destruct (styles (getOverflowListLinksHeight d s).2) as [dd pp hh].
  destruct (styles s) as [dd0 pp0 hh0]. simpl in *. by subst.
Qed.

(** The sample menu: submenu 47 is the one nested submenu; nothing has
    an inline display, and nothing has one afterwards. *)
Lemma links_measurement_restores_witness :
  styles (getOverflowListLinksHeight calm idle).2 = styles idle.
Proof.
  destruct (links_measurement_restores calm idle) as (_ & _ & _ & _ & _ & _ & H).
  destruct (H [40; 45]%positive eq_refl) as (_ & Hs).
  apply Hs. intros sm _. apply lookup_empty.
Defined.

(** *** The deferred height correction *)

(** X14: a mutation seen by the attached watcher is measured in the
    second animation frame after it, not the first: when the watched
    submenu then has a height above 0, that frame ends with this height
    published on the header component and no watcher attached, whatever
    other frame callbacks were queued before.  When no other frame callback is queued, the
    first frame after the mutation publishes nothing and detaches
    nothing, and a second frame that finds a height of 0 changes neither
    the styles nor the watcher's attachment. *)
Theorem mutation_measured_after_two_frames
    (d1 d2 : Dom) (s : Menu) (o : nat) (sm header : elem) (t0 : nat) :
  reachable s →
  observing (watcher s) !! o = Some (sm, t0) →
  headerComponent d2 = Some header →
  ∃ s1 s2 s3,
    step (Mutation o) s = Some s1 ∧
    step (AnimationFrame d1) s1 = Some s2 ∧
    step (AnimationFrame d2) s2 = Some s3 ∧
    height d2 s2 sm = height d2 s sm ∧
    (0 < height d2 s sm →
       published_height header s3 = Some (px (height d2 s sm)) ∧
       observing (watcher s3) = ∅) ∧
    (frames (watcher s) = [] →
       styles s2 = styles s ∧ observing (watcher s2) = observing (watcher s) ∧
       (height d2 s sm <= 0 →
          styles s3 = styles s ∧ observing (watcher s3) = observing (watcher s))).
Proof.
  intros Hreach Ho Hh.
  destruct (mutation_then_two_frames d1 d2 s o sm t0 (reachable_bounded s Hreach) Ho)
    as (s1 & s2 & before & H1 & H2 & H3 & Hhb & Hdb & Hd2 & Hempty).
  exists s1, s2, (frameCallback d2 (InnerFrame sm) before).
  split; [exact H1|]. split; [exact H2|]. split; [exact H3|].
  assert (Hm : height d2 before sm = height d2 s sm)
    by (unfold height; by rewrite Hdb, Hd2).
  split; [unfold height; by rewrite Hd2|].
  unfold frameCallback. rewrite Hm, Hh. split.
  - intros Hpos.
    replace (Z.ltb 0 (height d2 s sm)) with true by (symmetry; by apply Z.ltb_lt).
    split.
    + unfold published_height.
      rewrite cleanupMutationObserver_performs. unfold cleanup_effects. menu_simpl.
      destruct (submenuMutationObserver (watcher before)); menu_simpl;
        apply lookup_insert_eq.
    + by apply cleanup_detaches.
  - intros Hfr. destruct (Hempty Hfr) as (Hs2 & Ho2 & Hsb & Hob).
    split; [exact Hs2|]. split; [exact Ho2|].
    intros Hle.
    replace (Z.ltb 0 (height d2 s sm)) with false
      by (symmetry; apply Z.ltb_ge; lia).
    by split.
Qed.

(** Deferred content arrives in the submenu of entry A. *)
Lemma mutation_measured_after_two_frames_witness :
  let s := activate calm (pointerenter 10) idle in
  ∃ s1 s2 s3,
    step (Mutation 0) s = Some s1 ∧
    step (AnimationFrame calm) s1 = Some s2 ∧
    step (AnimationFrame calm) s2 = Some s3 ∧
    observing (watcher s3) = ∅.
Proof.
  intros s.
  assert (Hreach : reachable s).
  { exists idle, [Activate calm (pointerenter 10)]. split; [by repeat split|].
    eapply steps_cons; [reflexivity | apply steps_nil]. }
  destruct (mutation_measured_after_two_frames calm calm s 0%nat 12%positive
              1%positive 0%nat Hreach)
    as (s1 & s2 & s3 & H1 & H2 & H3 & _ & Hpos & _);
    try (vm_compute; reflexivity).
  exists s1, s2, s3. repeat split; try assumption.
  apply Hpos. vm_compute. reflexivity.
Defined.

(** *** Watchers come from activations only *)

Lemma cleanup_keeps_detached (s : Menu) :
  observing (watcher s) = ∅ →
  observing (watcher (cleanupMutationObserver s)) = ∅.
Proof.
  intros He. rewrite cleanupMutationObserver_performs. unfold cleanup_effects.
  destruct (submenuMutationObserver (watcher s)); menu_simpl; rewrite He;
    [apply delete_empty | reflexivity].
Qed.

Lemma step_keeps_detached (i : input) (s s' : Menu) :
  is_activation i = false → step i s = Some s' →
  observing (watcher s) = ∅ → observing (watcher s') = ∅.
Proof.
  intros Hi Hstep He.
  destruct i as [d ev|d ev|d| |o|d| |dt]; simpl in Hstep; try discriminate Hi.
  - injection Hstep as <-.
    by rewrite (proj1 (deactivation_keeps_watcher_aux d ev s)).
  - injection Hstep as <-.
    by rewrite (proj2 (deactivation_keeps_watcher_aux d (pointerenter 1) s)).
  - injection Hstep as <-. by apply cleanup_keeps_detached.
  - rewrite He, lookup_empty in Hstep. discriminate.
  - injection Hstep as <-.
    assert (H : ∀ cbs s0, observing (watcher s0) = ∅ →
                observing (watcher (fold_left (λ s cb, frameCallback d cb s) cbs s0)) = ∅).
    { induction cbs as [|cb cbs IH]; intros s0 H0; [exact H0|].
      simpl. apply IH. unfold frameCallback. destruct cb as [sm|sm].
      - exact H0.
      - destruct (Z.ltb 0 (height d s0 sm)); [|exact H0].
        apply cleanup_keeps_detached. by destruct (headerComponent d). }
    apply H. exact He.
  - destruct (timers (watcher s)) as [|due rest]; [discriminate|].
    destruct (due <=? now (watcher s))%nat; [|discriminate].
    injection Hstep as <-. by apply cleanup_keeps_detached.
  - injection Hstep as <-. exact He.
Qed.

Lemma steps_keep_detached (ins : list input) (s s' : Menu) :
  steps ins s s' → Forall (λ i, is_activation i = false) ins →
  observing (watcher s) = ∅ → observing (watcher s') = ∅.
Proof.
  induction 1 as [|i ins s1 s2 s3 Hstep _ IH]; intros Hall H0; [exact H0|].
  inversion Hall as [|? ? Hi Hrest]; subst.
  apply IH; [exact Hrest|]. by eapply step_keeps_detached.
Qed.

(** X15: once the component is disconnected no watcher is attached, and
    whatever happens afterwards (deactivations, late frame callbacks,
    cleanup timers firing, time passing), none is attached again unless
    a new activation comes in: [activate] is the only place that
    attaches a watcher. *)
Theorem only_activation_attaches (s s' : Menu) (ins : list input) :
  reachable s →
  Forall (λ i, is_activation i = false) ins →
  steps ins (disconnectedCallback s) s' →
  observing (watcher s') = ∅.
Proof.
  intros Hreach Hall Hsteps.
  destruct (reachable_bounded s Hreach) as (Hheld & _).
  eapply steps_keep_detached; [exact Hsteps | exact Hall |].
  unfold disconnectedCallback. by apply cleanup_detaches.
Qed.

(** Entry A is open when the menu is removed from the page; its cleanup
    timer fires later. *)
Lemma only_activation_attaches_witness :
  let s := activate calm (pointerenter 10) idle in
  ∃ s', steps [Tick 500; TimerFires] (disconnectedCallback s) s' ∧
        observing (watcher s') = ∅.
Proof.
  intros s.
  assert (Hreach : reachable s).
  { exists idle, [Activate calm (pointerenter 10)]. split; [by repeat split|].
    eapply steps_cons; [reflexivity | apply steps_nil]. }
  assert (Hsteps : ∃ s', steps [Tick 500; TimerFires] (disconnectedCallback s) s').
  { eexists. eapply steps_cons; [vm_compute; reflexivity|].
    eapply steps_cons; [vm_compute; reflexivity | apply steps_nil]. }
  destruct Hsteps as (s' & Hsteps). exists s'. split; [exact Hsteps|].
  eapply (only_activation_attaches s s' [Tick 500; TimerFires] Hreach);
    [repeat constructor | exact Hsteps].
Defined.

(** *** The menu item of a target *)

(** X16: hovering the "More" item activates the menu item of the first
    overflowing entry of the same list: [findMenuItem] follows the
    "More" element to its parent's first [slot="overflow"] element and
    returns that element's menu item, after one recursive call however
    much recursion is allowed; for any other element it returns the
    element's own menu item, and null when the "More" element has no
    parent or the parent has no overflowing entry. *)
Theorem findMenuItem_follows_more (d : Dom) (el : elem) (fuel : nat) :
  selectors_sound d →
  (slot d el ≠ "more" →
     findMenuItem_rec (S fuel) d (Some el) = querySelector_menuitem d el) ∧
  (slot d el = "more" →
     findMenuItem_rec (S fuel) d (Some el) =
       match parentElement d el ≫= querySelector_slot_overflow d with
       | Some o => querySelector_menuitem d o
       | None => None
       end).
Proof.
  intros Hsound. split; intros Hs.
  - simpl. by rewrite (proj2 (String.eqb_neq _ _) Hs).
  - rewrite (findMenuItem_enough_fuel d fuel (Some el) Hsound).
    unfold findMenuItem. simpl. rewrite Hs. simpl.
    destruct (parentElement d el ≫= querySelector_slot_overflow d) as [o|] eqn:Ho;
      [|reflexivity].
    assert (Hslot : slot d o = "overflow").
    { destruct (parentElement d el) as [p|]; [|discriminate]. by apply (Hsound p). }
    by rewrite Hslot.
Qed.

Lemma sample_selectors_sound (focused : option elem) (l p : bool) :
  selectors_sound (sample_dom focused l p).
Proof.
  intros par o. simpl. destruct (decide (par = 2%positive)); [|discriminate].
  intros [= <-]. reflexivity.
Qed.

(** The "More" item of the sample menu leads to the link of entry 40. *)
Lemma findMenuItem_follows_more_witness :
  findMenuItem_rec 3 calm (Some 30%positive) = Some 41%positive.
Proof.
  destruct (findMenuItem_follows_more calm 30%positive 2
              (sample_selectors_sound None false false)) as (_ & H).
  rewrite H by reflexivity. reflexivity.
Defined.

(** *** Preloading the images *)

Lemma lazy_images_spec (loading : gmap elem string) (image : elem) :
  image ∈ lazy_images loading ↔ loading !! image = Some "lazy".
Proof.
  unfold lazy_images. rewrite list_elem_of_fmap. split.
  - intros ([k v] & -> & Hin). apply elem_of_map_to_list in Hin.
    apply map_lookup_filter_Some in Hin. destruct Hin as (Hl & Hv).
    simpl in *. by subst.
  - intros Hl. exists (image, "lazy"). split; [reflexivity|].
    apply elem_of_map_to_list. apply map_lookup_filter_Some. by split.
Qed.

Lemma fold_delete_lookup (l : list elem) (m : gmap elem string) (k : elem) :
  fold_left (λ m image, delete image m) l m !! k =
    if decide (k ∈ l) then None else m !! k.
Proof. apply (unhide_all_lookup l m k). Qed.

(** X17: after the images are preloaded no image of the component is left
    with [loading="lazy"]: the attribute is removed from exactly the
    images that had that value, every other image keeps its [loading]
    attribute as it was, and preloading a second time changes
    nothing. *)
Theorem preloadImages_removes_lazy (loading : gmap elem string) (image : elem) :
  preloadImages loading !! image =
    (if decide (loading !! image = Some "lazy") then None else loading !! image) ∧
  preloadImages loading !! image ≠ Some "lazy" ∧
  preloadImages (preloadImages loading) = preloadImages loading.
Proof.
  assert (H : ∀ m k, preloadImages m !! k =
                     if decide (m !! k = Some "lazy") then None else m !! k).
  { intros m k. unfold preloadImages. rewrite fold_delete_lookup.
    destruct (decide (k ∈ lazy_images m)) as [Hin|Hin];
      destruct (decide (m !! k = Some "lazy")) as [Hl|Hl]; try reflexivity.
    - by apply lazy_images_spec in Hin.
    - by apply lazy_images_spec in Hl. }
  split; [apply H|]. split.
  - rewrite H. by destruct (decide (loading !! image = Some "lazy")).
  - apply map_eq. intros k. rewrite !H.
    destruct (decide (loading !! k = Some "lazy")) as [Hl|Hl].
    + by rewrite decide_False.
    + by rewrite decide_False.
Qed.

(** *** Closing and reopening an item *)

Lemma activate_item_default_state (d : Dom) (tgt header item : elem) (s : Menu) :
  headerComponent d = Some header → slot d tgt = EmptyString →
  let own := findSubmenu d (Some item) in
  let h := or0 (height d s <$> own) in
  flags (activate_item d tgt header item s) =
    {| activeItem := Some item;
       hostAriaExpanded := Some "true";
       ariaExpanded :=
         <[item := "true"]>
           match activeItem (flags s) with
           | Some prev => <[prev := "false"]> (ariaExpanded (flags s))
           | None => ariaExpanded (flags s)
           end;
       overflowExpanded := Some "false";
       dataActive :=
         match own with
         | Some sm => {[sm]} ∪ dataActive (flags s)
         | None => dataActive (flags s)
         end |} ∧
  styles (activate_item d tgt header item s) =
    {| inlineDisplay := inlineDisplay (styles s);
       styleProps :=
         <[(header, "--full-open-header-height") :=
             px (if Z.eqb h 0 then 0 else h + headerVisibleHeight d s header)]>
           (<[(header, "--submenu-height") := px h]> (styleProps (styles s)));
       hostStyle := <[ "--submenu-opacity" := "1" ]> (hostStyle (styles s)) |}.
Proof.
  intros Hh Hslot. cbv zeta. unfold activate_item.
  rewrite (measure_height_display_default d tgt item _ Hslot).
  unfold publish, setFullOpenHeaderHeight. rewrite Hh.
  unfold submenu_for. rewrite Hslot.
  change (String.eqb EmptyString EmptyString) with true. simpl negb.
  rewrite andb_false_r. cbv iota.
  unfold watch_submenu, headerVisibleHeight, height.
  destruct (findSubmenu d (Some item)) as [sm|]; menu_simpl.
  - rewrite cleanupMutationObserver_performs. unfold cleanup_effects.
    unfold switch_active. menu_simpl.
    rewrite Hslot.
    destruct (activeItem (flags s)); menu_simpl;
      destruct (submenuMutationObserver (watcher s)); menu_simpl; by split.
  - unfold switch_active. menu_simpl. rewrite Hslot.
    destruct (activeItem (flags s)); menu_simpl; by split.
Qed.

Lemma deactivate_unsuppressed_state
    (d : Dom) (event : Event) (s : Menu) (tgt it header : elem) :
  target event = Some tgt → activeItem (flags s) = Some it →
  headerComponent d = Some header →
  isMovingWithinMenu d event s = false →
  isMovingToOverflowMenu d event = false →
  isMovingToSubmenu d event s = false →
  overflowListHovered d = false →
  from_option (hovered d) false (overflowMenu d) = false →
  flags (deactivate d event s) =
    {| activeItem := None;
       hostAriaExpanded := Some "false";
       ariaExpanded := <[it := "false"]> (ariaExpanded (flags s));
       overflowExpanded := Some "false";
       dataActive :=
         match findSubmenu d (Some it) with
         | Some sm => dataActive (flags s) ∖ {[sm]}
         | None => dataActive (flags s)
         end |} ∧
  styles (deactivate d event s) =
    {| inlineDisplay := inlineDisplay (styles s);
       styleProps :=
         <[(header, "--full-open-header-height") := "0px"]>
           (<[(header, "--submenu-height") := "0px"]> (styleProps (styles s)));
       hostStyle := <[ "--submenu-opacity" := "0" ]> (hostStyle (styles s)) |}.
Proof.
  intros Ht Ha Hh H1 H2 H3 Hl Hp.
  unfold deactivate. rewrite Ht, H1, H2, H3. simpl orb. cbv iota.
  unfold deactivate_active, deactivate_item. rewrite Ha.
  rewrite decide_True by reflexivity. rewrite Hl, Hp. simpl orb. cbv iota.
  rewrite Hh. unfold setFullOpenHeaderHeight. rewrite Hh.
  change (Z.eqb 0 0) with true. cbv iota. rewrite px_0.
  destruct (findSubmenu d (Some it)) as [sm|]; menu_simpl; by split.
Qed.

Lemma reinsert_pair (m : gmap (elem * string) string)
    (k1 k2 : elem * string) (a b a0 b0 : string) :
  k1 ≠ k2 →
  <[k1 := a]> (<[k2 := b]> (<[k1 := a0]> (<[k2 := b0]> (<[k1 := a]> (<[k2 := b]> m)))))
  = <[k1 := a]> (<[k2 := b]> m).
Proof.
  intros Hne. apply map_eq. intros k.
  destruct (decide (k = k1)) as [->|H1].
  - by rewrite !lookup_insert_eq.
  - rewrite !(lookup_insert_ne _ k1 k) by congruence.
    destruct (decide (k = k2)) as [->|H2].
    + by rewrite !lookup_insert_eq.
    + repeat (rewrite lookup_insert_ne by congruence). reflexivity.
Qed.

(** X18: closing an item of the default slot and opening it again brings
    back what its first opening left: with the document unchanged, the
    flags (active item, expanded flags, overflow flag, [data-active]
    marks) and the styles (published heights, opacity, inline displays)
    after the second opening are those after the first. *)
Theorem reopening_restores
    (d : Dom) (evIn evOut : Event) (s : Menu) (tgt out header item : elem) :
  target evIn = Some tgt → target evOut = Some out →
  headerComponent d = Some header →
  findMenuItem d (Some tgt) = Some item → activeItem (flags s) ≠ Some item →
  slot d tgt = EmptyString →
  isMovingWithinMenu d evOut (activate d evIn s) = false →
  isMovingToOverflowMenu d evOut = false →
  isMovingToSubmenu d evOut (activate d evIn s) = false →
  overflowListHovered d = false →
  from_option (hovered d) false (overflowMenu d) = false →
  let s1 := activate d evIn s in
  let s3 := activate d evIn (deactivate d evOut s1) in
  flags s3 = flags s1 ∧ styles s3 = styles s1.
Proof.
  intros Ht Ho Hh Hi Hne Hslot G1 G2 G3 Hl Hp. cbv zeta.
  set (s1 := activate d evIn s) in *.
  assert (Hs1 : s1 = activate_item d tgt header item (perform DispatchMegaMenuHover s))
    by (by apply activate_passes).
  destruct (activate_item_default_state d tgt header item
              (perform DispatchMegaMenuHover s) Hh Hslot) as (F1 & S1).
  cbv zeta in F1, S1. rewrite <- Hs1 in F1, S1.
  assert (Ha1 : activeItem (flags s1) = Some item) by (by rewrite F1).
  destruct (deactivate_unsuppressed_state d evOut s1 out item header
              Ho Ha1 Hh G1 G2 G3 Hl Hp) as (F2 & S2).
  set (s2 := deactivate d evOut s1) in *.
  assert (Ha2 : activeItem (flags s2) ≠ Some item) by (by rewrite F2).
  rewrite (activate_passes d evIn s2 tgt header item Ht Hh Hi Ha2).
  destruct (activate_item_default_state d tgt header item
              (perform DispatchMegaMenuHover s2) Hh Hslot) as (F3 & S3).
  cbv zeta in F3, S3. rewrite F3, S3. clear F3 S3.
  unfold headerVisibleHeight, height in *. menu_simpl.
  rewrite F2, S2, F1, S1. menu_simpl. split.
  - f_equal.
    + rewrite !insert_insert_eq. reflexivity.
    + destruct (findSubmenu d (Some item)) as [sm|]; [|reflexivity].
      apply set_eq. intros x.
      rewrite !elem_of_union, elem_of_difference, elem_of_union, elem_of_singleton.
      destruct (decide (x = sm)); tauto.
  - f_equal.
    + apply reinsert_pair. intros [=].
    + rewrite !insert_insert_eq. reflexivity.
Qed.

(** Entry A of the sample menu is opened, left, and opened again. *)
Lemma reopening_restores_witness :
  let s1 := activate calm (pointerenter 10) idle in
  let s3 := activate calm (pointerenter 10) (deactivate calm (pointerleave 10 None) s1) in
  flags s3 = flags s1 ∧ styles s3 = styles s1.
Proof.
  apply (reopening_restores calm (pointerenter 10) (pointerleave 10 None) idle
           10%positive 10%positive 1%positive 11%positive);
    try (vm_compute; reflexivity).
  discriminate.
Defined.

End HeaderMenuFacts.
